(** * RADA AMS chatbot: the retrieval-augmentation pipeline of
      [chatbot_engine.py] and its caller [process_query] of [main_app.py].

    Python values are embedded as follows.
    - [str] is [string]; the text operations ([upper], [lower], [in],
      [replace], [re.findall]) are modelled on ASCII text.
    - [int] is [Z]; [len] results are [nat] injected into [Z].
    - a relevance score (a float, compared only with [<]) is a rational
      number, an infinity or NaN.
    - a metadata [dict] is a [gmap string scalar].
    - the external collaborators (embedding model, vector index, reranker,
      LLM client, tokenizer) are functions handed to the pipeline; calls to
      them are recorded in a trace, and each may raise, an instance of
      [Exception] or an exception outside that class. *)

From Stdlib Require Import String Ascii List ZArith QArith Lia Sorted Permutation.
From stdpp Require Import base option list gmap strings pretty.

Local Open Scope string_scope.
Local Open Scope list_scope.
Local Open Scope Z_scope.

(** ** Configuration constants *)

Definition LLM_MODEL_NAME : string := "llama-3.3-70b-versatile".
Definition TOP_K : Z := 30.
Definition MAX_TOKENS : Z := 4000.

(** ** Text operations of [str] on ASCII text *)

Module Text.

Definition code (c : ascii) : nat := nat_of_ascii c.

Definition in_range (lo hi : nat) (c : ascii) : bool :=
  (Nat.leb lo (code c)) && (Nat.leb (code c) hi).

Definition is_upper : ascii -> bool := in_range 65 90.
Definition is_lower : ascii -> bool := in_range 97 122.
Definition is_digit : ascii -> bool := in_range 48 57.

(** [str.isspace] on ASCII: tab, newline, vertical tab, form feed, carriage
    return, the four separators 28..31, and the space. *)
Definition is_space (c : ascii) : bool :=
  in_range 9 13 c || in_range 28 31 c || Nat.eqb (code c) 32.

Definition upper_char (c : ascii) : ascii :=
  if is_lower c then ascii_of_nat (code c - 32) else c.

Definition lower_char (c : ascii) : ascii :=
  if is_upper c then ascii_of_nat (code c + 32) else c.

Fixpoint map_chars (f : ascii -> ascii) (s : string) : string :=
  match s with
  | EmptyString => EmptyString
  | String c s' => String (f c) (map_chars f s')
  end.

(** [s.upper()] and [s.lower()] *)
Definition upper : string -> string := map_chars upper_char.
Definition lower : string -> string := map_chars lower_char.

(** [sub in s] *)
Fixpoint contains (s sub : string) : bool :=
  String.prefix sub s ||
  match s with
  | EmptyString => false
  | String _ s' => contains s' sub
  end.

(** [s.replace(old, new)]: every occurrence of [old], found left to right
    without overlap, is replaced by [new]. [skip] counts the characters of
    the occurrence just replaced that are still to be passed over. *)
Fixpoint replace_from (old new : string) (skip : nat) (s : string) : string :=
  match skip with
  | S n =>
      match s with
      | EmptyString => EmptyString
      | String _ s' => replace_from old new n s'
      end
  | O =>
      if String.prefix old s then
        new +:+
        match s with
        | EmptyString => EmptyString
        | String c s' =>
            match old with
            | EmptyString => String c (replace_from old new 0 s')
            | String _ old' => replace_from old new (String.length old') s'
            end
        end
      else
        match s with
        | EmptyString => EmptyString
        | String c s' => String c (replace_from old new 0 s')
        end
  end.

Definition replace (s old new : string) : string := replace_from old new 0 s.

(** [sep.join(parts)] *)
Fixpoint join (sep : string) (parts : list string) : string :=
  match parts with
  | [] => EmptyString
  | [x] => x
  | x :: rest => x +:+ sep +:+ join sep rest
  end.

(** The first [n] characters of [s]. *)
Definition take_chars (n : nat) (s : string) : string := String.substring 0 n s.

Definition NL : string := String (ascii_of_nat 10) EmptyString.

End Text.

(** ** The fragment of [re] that the patterns of [expand_query] use

    A backtracking matcher in continuation-passing style: alternatives are
    tried left to right, repetitions are greedy, and the first success
    wins, as in Python's [re]. *)

Module Re.

Import Text.

Inductive regex : Type :=
| Chr (p : ascii -> bool)                           (* one character of a class *)
| Rep (p : ascii -> bool) (lo : nat) (hi : option nat) (* class{lo,hi}, greedy *)
| Seq (r1 r2 : regex)
| Alt (r1 r2 : regex)
| Group (r : regex)                                 (* capturing group 1 *)
| Eps.

(** The outcome of a match attempt at a position: the text captured by the
    group, if it took part, and the input left after the match. *)
Definition outcome : Type := option string * string.
Definition cont : Type := option string -> string -> option outcome.

(** Greedy repetition of a character class: consume as long as allowed,
    and hand shorter repetitions to the continuation only on failure. *)
Fixpoint rep_match (p : ascii -> bool) (lo : nat) (hi : option nat)
    (s : string) (k : string -> option outcome) : option outcome :=
  let stop := match lo with O => k s | S _ => None end in
  match hi with
  | Some O => stop
  | _ =>
      match s with
      | String c s' =>
          if p c then
            match rep_match p (Nat.pred lo) (Nat.pred <$> hi) s' k with
            | Some r => Some r
            | None => stop
            end
          else stop
      | EmptyString => stop
      end
  end.

Fixpoint rmatch (r : regex) (g : option string) (s : string) (k : cont)
    : option outcome :=
  match r with
  | Chr p =>
      match s with
      | String c s' => if p c then k g s' else None
      | EmptyString => None
      end
  | Rep p lo hi => rep_match p lo hi s (k g)
  | Seq r1 r2 => rmatch r1 g s (fun g' s' => rmatch r2 g' s' k)
  | Alt r1 r2 =>
      match rmatch r1 g s k with
      | Some res => Some res
      | None => rmatch r2 g s k
      end
  | Group r1 =>
      rmatch r1 g s
        (fun _ s' => k (Some (take_chars (String.length s - String.length s') s)) s')
  | Eps => k g s
  end.

Fixpoint has_group (r : regex) : bool :=
  match r with
  | Group _ => true
  | Seq r1 r2 | Alt r1 r2 => has_group r1 || has_group r2
  | _ => false
  end.

(** A match attempt at the start of [s]: the item [findall] reports (the
    group's text when the pattern has a group, else the whole match) and
    the length of the match. *)
Definition match_here (r : regex) (s : string) : option (string * nat) :=
  match rmatch r None s (fun g s' => Some (g, s')) with
  | Some (g, s') =>
      let len := (String.length s - String.length s')%nat in
      let item := if has_group r then default EmptyString g else take_chars len s in
      Some (item, len)
  | None => None
  end.

(** [re.findall]: scan left to right; after a match resume at its end. *)
Fixpoint findall_from (r : regex) (skip : nat) (s : string) : list string :=
  match skip with
  | S n =>
      match s with
      | EmptyString => []
      | String _ s' => findall_from r n s'
      end
  | O =>
      match match_here r s with
      | Some (item, len) =>
          item ::
          match s with
          | EmptyString => []
          | String _ s' => findall_from r (Nat.pred len) s'
          end
      | None =>
          match s with
          | EmptyString => []
          | String _ s' => findall_from r 0 s'
          end
      end
  end.

Definition findall (r : regex) (s : string) : list string := findall_from r 0 s.

(** *** Pattern builders *)

Definition exactly (n : nat) (p : ascii -> bool) : regex := Rep p n (Some n).
Definition between (lo hi : nat) (p : ascii -> bool) : regex := Rep p lo (Some hi).
Definition optional (p : ascii -> bool) : regex := Rep p 0 (Some 1%nat).
Definition one_or_more (p : ascii -> bool) : regex := Rep p 1 None.

Definition is_char (a : ascii) (c : ascii) : bool := Nat.eqb (code a) (code c).

(** A literal character under [re.IGNORECASE]. *)
Definition is_char_i (a : ascii) (c : ascii) : bool :=
  Nat.eqb (code (lower_char a)) (code (lower_char c)).

(** A literal word under [re.IGNORECASE]. *)
Fixpoint word_i (w : string) : regex :=
  match w with
  | EmptyString => Eps
  | String a EmptyString => Chr (is_char_i a)
  | String a w' => Seq (Chr (is_char_i a)) (word_i w')
  end.

Fixpoint seq (rs : list regex) : regex :=
  match rs with
  | [] => Eps
  | [r] => r
  | r :: rest => Seq r (seq rest)
  end.

Fixpoint alt_words_i (ws : list string) : regex :=
  match ws with
  | [] => Eps
  | [w] => word_i w
  | w :: rest => Alt (word_i w) (alt_words_i rest)
  end.

End Re.

(** ** Query expansion: [expand_query] *)

Module Expand.

Import Text Re.

(** [[A-Z]{4}\d{3}[A-Z]?:[A-Z]\d{3,4}[A-Z]?] *)
Definition well_pattern : regex :=
  seq [exactly 4 is_upper; exactly 3 is_digit; optional is_upper;
       Chr (is_char ":"); Chr is_upper; between 3 4 is_digit; optional is_upper].

Definition flowstation_keywords : list string :=
  ["flowstation"; "fs"; "flow station"].

Definition is_slash_or_dash (c : ascii) : bool := is_char "/" c || is_char "-" c.

(** [\d{4}-\d{2}-\d{2}] *)
Definition iso_date_pattern : regex :=
  seq [exactly 4 is_digit; Chr (is_char "-"); exactly 2 is_digit;
       Chr (is_char "-"); exactly 2 is_digit].

(** [\d{1,2}[/-]\d{1,2}[/-]\d{2,4}] *)
Definition numeric_date_pattern : regex :=
  seq [between 1 2 is_digit; Chr is_slash_or_dash; between 1 2 is_digit;
       Chr is_slash_or_dash; between 2 4 is_digit].

(** [(January|...|December)\s+\d{1,2},?\s+\d{4}], matched with
    [re.IGNORECASE] *)
Definition month_date_pattern : regex :=
  seq [Group (alt_words_i
         ["January"; "February"; "March"; "April"; "May"; "June"; "July";
          "August"; "September"; "October"; "November"; "December"]);
       one_or_more is_space; between 1 2 is_digit; optional (is_char ",");
       one_or_more is_space; exactly 4 is_digit].

Definition date_patterns : list regex :=
  [iso_date_pattern; numeric_date_pattern; month_date_pattern].

(** The two queries appended for each well identifier found. *)
Definition well_queries (wells : list string) : list string :=
  flat_map (fun well => ["well " +:+ well; "production " +:+ well]) wells.

(** One round of the [for keyword in flowstation_keywords] loop. *)
Definition flowstation_step (query : string) (queries : list string)
    (keyword : string) : list string :=
  if contains (lower query) keyword
  then queries ++ [replace query keyword "flowStation"]
  else queries.

(** [f"date {d} production"] *)
Definition date_query (d : string) : string := "date " +:+ d +:+ " production".

(** One round of the [for pattern in date_patterns] loop. *)
Definition date_step (query : string) (queries : list string)
    (pattern : regex) : list string :=
  match findall pattern query with
  | d :: _ => queries ++ [date_query d]
  | [] => queries
  end.

(** The list [queries] as it stands when [expand_query] reaches the date
    patterns. *)
Definition queries_before_dates (query : string) : list string :=
  let queries := [query] in
  let wells := findall well_pattern (upper query) in
  let queries := queries ++ well_queries wells in
  let queries := foldl (flowstation_step query) queries flowstation_keywords in
  queries.

(** The list [queries] as it stands when [expand_query] reaches its
    [return]. *)
Definition expand_query_list (query : string) : list string :=
  let queries := queries_before_dates query in
  let queries := foldl (date_step query) queries date_patterns in
  queries.

(** [list(set(xs))]: the distinct elements of [xs] in the iteration order
    of the set, which depends on the string hashes of the run. *)
Definition set_order : Type := list string -> list string.

Definition set_order_ok (list_set : set_order) : Prop :=
  forall xs, NoDup (list_set xs) /\ forall x, x ∈ list_set xs <-> x ∈ xs.

Definition expand_query (list_set : set_order) (query : string) : list string :=
  list_set (expand_query_list query).

(** *** The date step as the specification words it

    Following the specification's words, not the source: the patterns are
    tried in order and only the first one that matches contributes a
    query. Used only to compare with [expand_query_list]. *)
Fixpoint spec_first_date_only (query : string) (patterns : list regex)
    : list string :=
  match patterns with
  | [] => []
  | pattern :: rest =>
      match findall pattern query with
      | d :: _ => [date_query d]
      | [] => spec_first_date_only query rest
      end
  end.

Definition spec_expand_query_list (query : string) : list string :=
  queries_before_dates query ++ spec_first_date_only query date_patterns.

End Expand.

(** ** The context budgeter: [limit_context] *)

Module Budget.

(** [tiktoken]: an encoder maps a text to its token ids;
    [encoding_for_model] fails for a model name it does not know. *)
Definition encoder : Type := string -> list Z.

Record tiktoken : Type := {
  encoding_for_model : string -> option encoder;
  get_encoding : string -> encoder
}.

(** [try: enc = encoding_for_model(model) except: enc = get_encoding(...)] *)
Definition select_encoder (tk : tiktoken) (model : string) : encoder :=
  match encoding_for_model tk model with
  | Some enc => enc
  | None => get_encoding tk "cl100k_base"
  end.

(** [len(enc.encode(chunk))] *)
Definition chunk_tokens (enc : encoder) (chunk : string) : Z :=
  Z.of_nat (length (enc chunk)).

(** The [for chunk in chunks] loop, with the accumulators [context] and
    [token_count]; [break] returns them as they stand. *)
Fixpoint limit_loop (enc : encoder) (max_tokens : Z) (chunks : list string)
    (context : list string) (token_count : Z) : list string * Z :=
  match chunks with
  | [] => (context, token_count)
  | chunk :: rest =>
      if token_count + chunk_tokens enc chunk >? max_tokens
      then (context, token_count)
      else limit_loop enc max_tokens rest (context ++ [chunk])
             (token_count + chunk_tokens enc chunk)
  end.

Definition limit_context (tk : tiktoken) (chunks : list string) (max_tokens : Z)
    (model : string) : list string * Z :=
  limit_loop (select_encoder tk model) max_tokens chunks [] 0.

(** Total token cost of a list of chunks. *)
Definition total_tokens (enc : encoder) (chunks : list string) : Z :=
  foldr (fun c acc => chunk_tokens enc c + acc) 0 chunks.

End Budget.

(** ** Chunk metadata and the one-line summary of the prompt composer *)

Module Meta.

(** The scalar values a metadata mapping holds. *)
Inductive scalar : Type :=
| SStr (s : string)
| SInt (n : Z)
| SBool (b : bool)
| SNone.

(** [str(v)], as an f-string renders a value. *)
Definition py_str (v : scalar) : string :=
  match v with
  | SStr s => s
  | SInt n => pretty n
  | SBool true => "True"
  | SBool false => "False"
  | SNone => "None"
  end.

(** Truth value of a scalar. *)
Definition truthy (v : scalar) : bool :=
  match v with
  | SStr EmptyString => false
  | SStr _ => true
  | SInt n => negb (n =? 0)
  | SBool b => b
  | SNone => false
  end.

(** [a or b] *)
Definition py_or (a b : scalar) : scalar := if truthy a then a else b.

Definition metadata : Type := gmap string scalar.

(** [meta.get(key)] and [meta.get(key, dflt)] *)
Definition get (meta : metadata) (key : string) : scalar :=
  default SNone (meta !! key).
Definition get_default (meta : metadata) (key : string) (dflt : scalar) : scalar :=
  default dflt (meta !! key).

(** [key in meta] *)
Definition has_key (meta : metadata) (key : string) : bool :=
  bool_decide (is_Some (meta !! key)).

(** The body of the [for chunk, meta in zip(...)] loop up to
    [context_parts.append]: the summary line of one chunk. *)
Definition meta_summary (meta : metadata) : string :=
  let meta_summary :=
    "[Collection: " +:+ py_str (get_default meta "collection" (SStr "Unknown")) +:+ "]" in
  let meta_summary :=
    if has_key meta "asset"
    then meta_summary +:+ " [Asset: " +:+ py_str (get meta "asset") +:+ "]"
    else meta_summary in
  let meta_summary :=
    if has_key meta "flowStation" || has_key meta "flowstation"
    then
      let fs := py_or (get meta "flowStation") (get meta "flowstation") in
      meta_summary +:+ " [Flowstation: " +:+ py_str fs +:+ "]"
    else meta_summary in
  let meta_summary :=
    if has_key meta "date" || has_key meta "productionDate"
    then
      let date := py_or (get meta "date") (get meta "productionDate") in
      meta_summary +:+ " [Date: " +:+ py_str date +:+ "]"
    else meta_summary in
  meta_summary.

End Meta.

(** ** Deduplication of the retrieved chunks *)

Module Dedup.

Import Meta.

(** The [for chunk, meta in zip(all_chunks, all_metadatas)] loop with its
    [seen] set and the two output lists. *)
Fixpoint dedupe_loop (pairs : list (string * metadata)) (seen : gset string)
    (unique_chunks : list string) (unique_metadatas : list metadata)
    : list string * list metadata :=
  match pairs with
  | [] => (unique_chunks, unique_metadatas)
  | (chunk, meta) :: rest =>
      if decide (chunk ∈ seen)
      then dedupe_loop rest seen unique_chunks unique_metadatas
      else dedupe_loop rest ({[chunk]} ∪ seen)
             (unique_chunks ++ [chunk]) (unique_metadatas ++ [meta])
  end.

Definition dedupe (all_chunks : list string) (all_metadatas : list metadata)
    : list string * list metadata :=
  dedupe_loop (zip all_chunks all_metadatas) ∅ [] [].

End Dedup.

(** ** [sorted(..., key=..., reverse=True)]

    The list sort is stable and compares keys with [<] only; with
    [reverse=True] it reverses the list, sorts it ascending and reverses
    the result, which keeps elements of equal key in their input order. *)

Module PySort.

(** A float score: a finite number, an infinity, or NaN. *)
Inductive score : Type :=
| Num (q : Q)
| Inf
| NegInf
| NaN.

Definition is_number (s : score) : bool :=
  match s with NaN => false | _ => true end.

(** [a < b], [a <= b] and [a == b] on floats: false as soon as NaN is
    involved. *)
Definition py_lt (a b : score) : bool :=
  match a, b with
  | NaN, _ | _, NaN => false
  | _, NegInf => false
  | NegInf, _ => true
  | Inf, _ => false
  | Num _, Inf => true
  | Num x, Num y => negb (Qle_bool y x)
  end.

Definition py_le (a b : score) : bool :=
  match a, b with
  | NaN, _ | _, NaN => false
  | NegInf, _ => true
  | _, NegInf => false
  | _, Inf => true
  | Inf, Num _ => false
  | Num x, Num y => Qle_bool x y
  end.

Definition py_eq (a b : score) : bool :=
  match a, b with
  | Num x, Num y => Qeq_bool x y
  | Inf, Inf => true
  | NegInf, NegInf => true
  | _, _ => false
  end.

Section Sorted.

Context {A : Type}.
Variable key : A -> score.

(** [key x < key y] *)
Definition key_lt (x y : A) : bool := py_lt (key x) (key y).

(** Insert [x] in front of an ascending list, in front of the elements
    whose key is not smaller. *)
Fixpoint insert_asc (x : A) (l : list A) : list A :=
  match l with
  | [] => [x]
  | y :: l' => if key_lt y x then y :: insert_asc x l' else x :: y :: l'
  end.

Definition sort_asc (l : list A) : list A := foldr insert_asc [] l.

Definition sorted_reverse (l : list A) : list A := rev (sort_asc (rev l)).

(** Two elements tie when their keys are equal. *)
Definition ties_with (k : score) (x : A) : bool := py_eq (key x) k.

Definition ascending : list A -> Prop :=
  StronglySorted (fun x y => py_le (key x) (key y) = true).
Definition descending : list A -> Prop :=
  StronglySorted (fun x y => py_le (key y) (key x) = true).

End Sorted.

(** What the list sort does whatever the keys: it leaves a permutation. *)
Definition permutes {A : Type} (sort : list A -> list A) : Prop :=
  forall l, Permutation (sort l) l.

(** [sorted(l, key=key, reverse=True)] with float keys. When all the keys
    are numbers (finite or infinite), [<] orders them and the result is
    the one list every stable sort returns. With NaN among the keys the
    comparisons are not consistent and the result depends on how the
    interpreter's sort detects runs and inserts; [nan_sort] stands for
    what it does then. *)
Definition py_sorted_reverse {A : Type} (nan_sort : list A -> list A)
    (key : A -> score) (l : list A) : list A :=
  if forallb (fun x => is_number (key x)) l
  then sorted_reverse key l
  else nan_sort l.

(** [zip(a, b, c)]: triples, as long as the shortest argument. *)
Definition zip3 {A B C : Type} (a : list A) (b : list B) (c : list C)
    : list (A * B * C) :=
  zip (zip a b) c.

End PySort.

(** ** Reranking: scoring order of the unique chunks *)

Module Rerank.

Import Meta PySort.

Definition scored : Type := string * metadata * score.

Definition score_of (x : scored) : score := snd x.
Definition chunk_of (x : scored) : string := fst (fst x).
Definition meta_of (x : scored) : metadata := snd (fst x).

(** [sorted(zip(unique_chunks, unique_metadatas, scores),
            key=lambda x: x[2], reverse=True)] *)
Definition rerank (nan_sort : list scored -> list scored)
    (unique_chunks : list string) (unique_metadatas : list metadata)
    (scores : list score) : list scored :=
  py_sorted_reverse nan_sort score_of (zip3 unique_chunks unique_metadatas scores).

End Rerank.

(** ** Effects: raised exceptions and the trace of collaborator calls *)

Module Effects.

Import Meta PySort.

(** An exception object; [exn_msg] is [str(e)]. *)
Record exn : Type := Exn { exn_class : string; exn_msg : string }.

(** What a call can raise: an instance of [Exception], which
    [except Exception] catches, or an exception outside that class
    ([KeyboardInterrupt], [SystemExit], ...), which it lets through. *)
Inductive raised : Type :=
| Exc (e : exn)
| BaseExc (e : exn).

Coercion Exc : exn >-> raised.

(** A returned text, or [None]. *)
Inductive reply : Type :=
| Text (s : string)
| NoContent.

Coercion Text : string >-> reply.

Definition IndexError : exn := Exn "IndexError" "list index out of range".
Definition TypeError : exn :=
  Exn "TypeError" "'NoneType' object is not subscriptable".

(** An embedding vector. *)
Definition vector : Type := list Q.

(** The answer of the vector index to one query: the [documents] and
    [metadatas] entries, one inner list per query embedding. *)
Record query_result : Type := {
  documents : option (list (list string));
  metadatas : option (list (list metadata))
}.

(** The request sent to [chat.completions.create]. *)
Record chat_request : Type := {
  model : string;
  system_content : string;
  user_content : string;
  temperature : Q;
  max_completion_tokens : Z;
  top_p : Q;
  stream : bool
}.

(** A completion: the message contents of its [choices]; the content of
    a message is optional. *)
Definition completion : Type := list reply.

Inductive event : Type :=
| EvEncode (query : string)
| EvQuery (query_embedding : vector) (n_results : Z)
| EvPredict (pairs : list (string * string))
| EvChat (request : chat_request).

Definition trace : Type := list event.

(** The external collaborators. Each answers a call from the calls made so
    far and the argument, with a value or with an exception. *)
Record collaborators : Type := {
  encode : trace -> string -> raised + vector;
  index_query : trace -> vector -> Z -> raised + query_result;
  predict : trace -> list (string * string) -> raised + list score;
  chat_create : trace -> chat_request -> raised + completion
}.

(** Computations that may call collaborators and may raise. *)
Definition M (A : Type) : Type := trace -> (raised + A) * trace.

Definition ret {A} (a : A) : M A := fun t => (inr a, t).

Definition bind {A B} (c : M A) (k : A -> M B) : M B :=
  fun t =>
    match c t with
    | (inl e, t') => (inl e, t')
    | (inr a, t') => k a t'
    end.

#[export] Instance M_ret : MRet M := @ret.
#[export] Instance M_bind : MBind M := fun A B k c => bind c k.

Definition raise {A} (e : raised) : M A := fun t => (inl e, t).

(** [try: body except Exception as e: handler(e)]: the handler runs for
    the instances of [Exception]; anything else goes on up. *)
Definition try_except {A} (body : M A) (handler : exn -> M A) : M A :=
  fun t =>
    match body t with
    | (inl (Exc e), t') => handler e t'
    | (inl (BaseExc e), t') => (inl (BaseExc e), t')
    | (inr a, t') => (inr a, t')
    end.

(** A call: the collaborator sees the trace so far, and the call is
    recorded whether it returns or raises. *)
Definition call {A} (ev : event) (answer : trace -> raised + A) : M A :=
  fun t => (answer t, t ++ [ev]).

Definition is_retrieval_event (ev : event) : bool :=
  match ev with
  | EvEncode _ | EvQuery _ _ => true
  | EvPredict _ | EvChat _ => false
  end.

End Effects.


(** ** The pipeline: [groq_llm_inference], [query_chatbot], [process_query] *)

Module Engine.

Import Text Expand Meta Dedup PySort Rerank Budget Effects.

(** What one run of the process fixes besides the collaborators: the
    iteration order of string sets, the tokenizer library, and what the
    interpreter's sort does with NaN keys. *)
Record runtime : Type := {
  list_set : set_order;
  tk : tiktoken;
  nan_sort : list scored -> list scored;
  services : collaborators
}.

Definition SYSTEM_PROMPT : string :=
  join (NL +:+ "                    ")
    ["You are a petroleum engineering data assistant.";
     "Provide accurate, specific answers based strictly on the data provided.";
     "When referencing production values, always include units (barrels, Mscf, etc.).";
     "When data is incomplete or missing, clearly state what's missing.";
     "Format numbers with appropriate precision (2-4 decimal places).";
     "Use markdown tables when presenting multiple data points."].

Definition chat_request_of (prompt : string) : chat_request :=
  {| model := LLM_MODEL_NAME;
     system_content := SYSTEM_PROMPT;
     user_content := prompt;
     temperature := 3 # 10;
     max_completion_tokens := 1024;
     top_p := 9 # 10;
     stream := false |}.

Definition LLM_ERROR_PREFIX : string := "⚠️ Error generating response: ".
Definition QUERY_ERROR_PREFIX : string := "⚠️ Error processing query: ".
Definition WARNING_MARKER : string := "⚠️".
Definition NO_INFO_MESSAGE : string :=
  "❌ No relevant information found in the database for your query.".

Definition groq_llm_inference (R : runtime) (prompt : string) : M reply :=
  try_except
    (completion ← call (EvChat (chat_request_of prompt))
                     (fun t => chat_create (services R) t (chat_request_of prompt));
     (* completion.choices[0].message.content *)
     match completion with
     | content :: _ => ret content
     | [] => raise IndexError
     end)
    (fun e => ret (Text (LLM_ERROR_PREFIX +:+ exn_msg e))).

(** The retrieval loop [for query in expanded_queries[:3]]. *)
Fixpoint retrieve_loop (R : runtime) (n_results : Z) (queries : list string)
    (all_chunks : list string) (all_metadatas : list metadata)
    : M (list string * list metadata) :=
  match queries with
  | [] => ret (all_chunks, all_metadatas)
  | query :: rest =>
      query_embedding ← call (EvEncode query)
                           (fun t => encode (services R) t query);
      results ← call (EvQuery query_embedding n_results)
                   (fun t => index_query (services R) t query_embedding n_results);
      match documents results with
      | Some (((_ :: _) as docs) :: _) =>
          match metadatas results with
          | Some (metas :: _) =>
              retrieve_loop R n_results rest (all_chunks ++ docs) (all_metadatas ++ metas)
          | Some [] => raise IndexError
          | None => raise TypeError
          end
      | _ => retrieve_loop R n_results rest all_chunks all_metadatas
      end
  end.

(** Whether an answer of the index carries candidates: the test
    [results["documents"] and results["documents"][0]] of the loop. *)
Definition has_candidates (results : query_result) : bool :=
  match documents results with
  | Some ((_ :: _) :: _) => true
  | _ => false
  end.

(** [context_parts] and [context_text] *)
Definition context_parts (limited_chunks : list string)
    (reranked_metadatas : list metadata) : list string :=
  map (fun '(chunk, meta) => meta_summary meta +:+ NL +:+ chunk)
    (zip limited_chunks (take (length limited_chunks) reranked_metadatas)).

Definition CONTEXT_SEPARATOR : string := NL +:+ NL +:+ "---" +:+ NL +:+ NL.

Definition PROMPT_HEADER : string :=
  join NL
    ["You are analyzing petroleum engineering production data from a database.";
     "";
     "**IMPORTANT INSTRUCTIONS:**";
     "1. Answer based ONLY on the context provided below";
     "2. If you find specific data, cite it with exact values and units";
     "3. If data is missing or incomplete, clearly state what's missing";
     "4. For production queries, include: well name, flowstation, values with units";
     "5. For date-based queries, verify the date matches what was asked";
     "6. If you see multiple records, analyze all of them";
     "7. Be precise with numbers - don't round unnecessarily";
     "8. Use markdown tables for multiple data points";
     "";
     "**CONTEXT DATA:**";
     ""].

Definition build_prompt (context_text user_question : string) : string :=
  PROMPT_HEADER +:+ context_text +:+
  join NL [""; ""; "**USER QUESTION:**"] +:+ NL +:+ user_question +:+
  join NL [""; ""; "**YOUR ANSWER:**"].

Definition query_chatbot (R : runtime) (user_question : string) (debug : bool)
    : M reply :=
  let expanded_queries := expand_query (list_set R) user_question in
  let consumed := take 3 expanded_queries in
  let n_results := TOP_K `div` Z.of_nat (length consumed) in
  '(all_chunks, all_metadatas) ← retrieve_loop R n_results consumed [] [];
  match all_chunks with
  | [] => ret (Text NO_INFO_MESSAGE)
  | _ :: _ =>
      let '(unique_chunks, unique_metadatas) := dedupe all_chunks all_metadatas in
      let pairs := map (fun doc => (user_question, doc)) unique_chunks in
      scores ← call (EvPredict pairs) (fun t => predict (services R) t pairs);
      let reranked_with_scores :=
        rerank (nan_sort R) unique_chunks unique_metadatas scores in
      let reranked_chunks := map chunk_of reranked_with_scores in
      let reranked_metadatas := map meta_of reranked_with_scores in
      (* the debug print reads reranked_with_scores[0][2] *)
      _ ← (match debug, reranked_with_scores with
            | true, [] => raise IndexError
            | _, _ => ret tt
            end);
      let '(limited_chunks, token_count) :=
        limit_context (tk R) reranked_chunks MAX_TOKENS "gpt-3.5-turbo" in
      let context_text :=
        join CONTEXT_SEPARATOR (context_parts limited_chunks reranked_metadatas) in
      let prompt := build_prompt context_text user_question in
      groq_llm_inference R prompt
  end.

(** [process_query] of [main_app.py]: the caller of [query_chatbot]. *)
Definition process_query (R : runtime) (user_input : string) : M reply :=
  try_except (query_chatbot R user_input false)
    (fun e => ret (Text (QUERY_ERROR_PREFIX +:+ exn_msg e))).

(** Collaborators that raise instances of [Exception] only. *)
Definition raises_exceptions_only (S : collaborators) : Prop :=
  (forall t query e, encode S t query <> inl (BaseExc e)) /\
  (forall t v n e, index_query S t v n <> inl (BaseExc e)) /\
  (forall t pairs e, predict S t pairs <> inl (BaseExc e)) /\
  (forall t request e, chat_create S t request <> inl (BaseExc e)).

(** An LLM backend whose completions carry a text in their first choice. *)
Definition completions_have_text (S : collaborators) : Prop :=
  forall t request rest, chat_create S t request <> inr (NoContent :: rest).

End Engine.

(** ** Counting the calls of a run *)

Module Calls.

Import Effects.

Definition is_encode (ev : event) : bool :=
  match ev with EvEncode _ => true | _ => false end.
Definition is_index_query (ev : event) : bool :=
  match ev with EvQuery _ _ => true | _ => false end.
Definition is_predict (ev : event) : bool :=
  match ev with EvPredict _ => true | _ => false end.
Definition is_chat (ev : event) : bool :=
  match ev with EvChat _ => true | _ => false end.

(** The number of recorded calls of one kind. *)
Definition count (kind : event -> bool) (evs : trace) : nat :=
  length (List.filter kind evs).

(** What the calls of a retrieval over [queries] look like: retrieval
    calls only, at most one encode call and one index call per query,
    every index call asking for [n_results], every encoded text being one
    of the queries. *)
Definition retrieval_calls (n_results : Z) (queries : list string) (evs : trace)
    : Prop :=
  forallb is_retrieval_event evs = true /\
  (count is_encode evs <= length queries)%nat /\
  (count is_index_query evs <= length queries)%nat /\
  (forall v n, EvQuery v n ∈ evs -> n = n_results) /\
  (forall query, EvEncode query ∈ evs -> query ∈ queries).

(** An answer of the index is aligned when its first list of documents
    and its first list of metadata have the same length. *)
Definition aligned (results : query_result) : Prop :=
  match documents results, metadatas results with
  | Some (docs :: _), Some (metas :: _) => length docs = length metas
  | _, _ => True
  end.

End Calls.

(** ** Choosing the vector database: [database.py] *)

Module Database.

Import Effects.

Definition COLLECTION_NAME : string := "rada_chatbot_data".

Section Backends.

(** The collection objects handed out by the ChromaDB clients. *)
Context {collection : Type}.

(** What the process finds around it when it looks for a database. The
    answers are those of one start-up; progress messages are not modelled. *)
Record environment : Type := {
  (* os.path.join(os.path.dirname(__file__), "chroma_db") *)
  cloud_chroma_path : string;
  (* os.path.exists(path) *)
  path_exists : string -> bool;
  (* PersistentClient(path=path).get_or_create_collection(name=name, ...) *)
  persistent_collection : string -> string -> exn + collection;
  (* HttpClient(host=host, port=port).get_or_create_collection(name=name, ...) *)
  http_collection : string -> Z -> string -> exn + collection;
  (* os.getenv(name) *)
  getenv : string -> option string;
  (* int(text) *)
  int_of_str : string -> exn + Z
}.

(** [try: ... return collection except Exception: return None] *)
Definition or_none {A} (attempt : exn + A) : option A :=
  match attempt with
  | inr a => Some a
  | inl _ => None
  end.

Definition init_chroma_local (env : environment) (path : string) : option collection :=
  or_none (persistent_collection env path COLLECTION_NAME).

Definition init_chroma_docker (env : environment) (host : string) (port : Z)
    : option collection :=
  or_none (http_collection env host port COLLECTION_NAME).

Definition init_chroma_cloud (env : environment) : option collection :=
  or_none
    (let chroma_path := cloud_chroma_path env in
     if negb (path_exists env chroma_path)
     then inl (Exn "FileNotFoundError" ("ChromaDB folder not found at " +:+ chroma_path))
     else persistent_collection env chroma_path COLLECTION_NAME).

Definition ALL_SOURCES_FAILED : exn :=
  Exn "RuntimeError" "❌ Failed to initialize ChromaDB from any source!".

(** [os.getenv(name, dflt)] *)
Definition getenv_default (env : environment) (name dflt : string) : string :=
  default dflt (getenv env name).

Definition get_vector_db (env : environment) : exn + (collection * string) :=
  match init_chroma_cloud env with
  | Some collection => inr (collection, "cloud")
  | None =>
      match init_chroma_local env "./chroma_db" with
      | Some collection => inr (collection, "local")
      | None =>
          let docker_host := getenv_default env "CHROMA_DOCKER_HOST" "localhost" in
          match int_of_str env (getenv_default env "CHROMA_DOCKER_PORT" "8000") with
          | inl e => inl e
          | inr docker_port =>
              match init_chroma_docker env docker_host docker_port with
              | Some collection => inr (collection, "docker")
              | None => inl ALL_SOURCES_FAILED
              end
          end
      end
  end.

End Backends.

Arguments environment : clear implicits.

End Database.

(** ** Start-up of the application: [init_groq_client] and [initialize_app] *)

Module App.

Import Effects Database.

Section Startup.

Context {collection embedding_model reranker groq_client : Type}.

(** The model loaders and the constructor of the Groq client. *)
Record loaders : Type := {
  (* SentenceTransformer(EMBEDDING_MODEL) *)
  load_embedding_model : exn + embedding_model;
  (* CrossEncoder(RERANKER_MODEL) *)
  load_reranker : exn + reranker;
  (* Groq(api_key=api_key) *)
  groq_constructor : string -> exn + groq_client
}.

Definition MISSING_API_KEY : exn :=
  Exn "RuntimeError" "❌ GROQ_API_KEY not found in environment variables".

(** [init_groq_client] of [chatbot_engine.py]; [not api_key] holds for an
    unset variable and for the empty text. *)
Definition init_groq_client (env : environment collection) (L : loaders)
    : exn + groq_client :=
  match getenv env "GROQ_API_KEY" with
  | None | Some EmptyString => inl MISSING_API_KEY
  | Some api_key => groq_constructor L api_key
  end.

(** The dictionary [initialize_app] returns: the components with the
    status "success", or the status "error" with the text of the
    exception. *)
Inductive components : Type :=
| Success (collection_ : collection) (embedding_model_ : embedding_model)
    (reranker_ : reranker) (groq_client_ : groq_client) (db_source : string)
| Error (error : string).

Definition status (c : components) : string :=
  match c with
  | Success _ _ _ _ _ => "success"
  | Error _ => "error"
  end.

Definition initialize_app (env : environment collection) (L : loaders) : components :=
  match get_vector_db env with
  | inl e => Error (exn_msg e)
  | inr (collection, db_source) =>
      match load_embedding_model L with
      | inl e => Error (exn_msg e)
      | inr embedding_model =>
          match load_reranker L with
          | inl e => Error (exn_msg e)
          | inr reranker =>
              match init_groq_client env L with
              | inl e => Error (exn_msg e)
              | inr groq_client =>
                  Success collection embedding_model reranker groq_client db_source
              end
          end
      end
  end.

End Startup.

Arguments loaders : clear implicits.
Arguments components : clear implicits.

End App.

(** ** Sample collaborators, used to run the definitions on concrete inputs *)

Module Demo.

Import Text Expand Meta PySort Rerank Budget Effects Engine.

(** A tokenizer that makes a thousand tokens of every character. *)
Definition char_encoder : encoder :=
  fun s => flat_map (fun c => replicate 1000 (Z.of_nat (code c))) (list_ascii_of_string s).

(** A tokenizer library that knows no model name, so that [limit_context]
    falls back to [get_encoding]. *)
Definition char_tiktoken : tiktoken :=
  {| encoding_for_model := fun _ => None; get_encoding := fun _ => char_encoder |}.

(** One admissible iteration order of a set of strings: first occurrences. *)
Definition first_seen_order : set_order := remove_dups.

(** Collaborators around an index that answers every query with the given
    documents, each with empty metadata; the scorer gives every pair the
    score 1 and the LLM backend answers with a fixed text. *)
Definition fixed_index (docs : list string) : collaborators :=
  {| encode := fun _ _ => inr [];
     index_query := fun _ _ _ =>
       inr {| documents := Some [docs]; metadatas := Some [map (fun _ => ∅) docs] |};
     predict := fun _ pairs => inr (map (fun _ => Num 1) pairs);
     chat_create := fun _ _ => inr [Text "The answer."] |}.

(** An interpreter whose sort leaves a list with NaN keys as it finds it. *)
Definition as_found : list scored -> list scored := fun l => l.

Definition fixed_runtime (docs : list string) : runtime :=
  {| list_set := first_seen_order; tk := char_tiktoken; nan_sort := as_found;
     services := fixed_index docs |}.

(** The collaborators of [fixed_index] with an LLM backend that is
    interrupted from the keyboard during its call. *)
Definition backend_interrupted (docs : list string) : runtime :=
  {| list_set := first_seen_order; tk := char_tiktoken; nan_sort := as_found;
     services :=
       {| encode := encode (fixed_index docs);
          index_query := index_query (fixed_index docs);
          predict := predict (fixed_index docs);
          chat_create := fun _ _ => inl (BaseExc (Exn "KeyboardInterrupt" "")) |} |}.

(** The collaborators of [fixed_index] with an embedding model that is
    interrupted from the keyboard during its call. *)
Definition embedding_interrupted (docs : list string) : runtime :=
  {| list_set := first_seen_order; tk := char_tiktoken; nan_sort := as_found;
     services :=
       {| encode := fun _ _ => inl (BaseExc (Exn "KeyboardInterrupt" ""));
          index_query := index_query (fixed_index docs);
          predict := predict (fixed_index docs);
          chat_create := chat_create (fixed_index docs) |} |}.

(** The collaborators of [fixed_index] with an LLM backend whose
    completion has no content. *)
Definition backend_without_content (docs : list string) : runtime :=
  {| list_set := first_seen_order; tk := char_tiktoken; nan_sort := as_found;
     services :=
       {| encode := encode (fixed_index docs);
          index_query := index_query (fixed_index docs);
          predict := predict (fixed_index docs);
          chat_create := fun _ _ => inr [NoContent] |} |}.

(** The collaborators of [fixed_index] with a reranker that is down. *)
Definition reranker_down (docs : list string) : runtime :=
  {| list_set := first_seen_order; tk := char_tiktoken; nan_sort := as_found;
     services :=
       {| encode := encode (fixed_index docs);
          index_query := index_query (fixed_index docs);
          predict := fun _ _ => inl (Exc (Exn "RuntimeError" "model is not loaded"));
          chat_create := chat_create (fixed_index docs) |} |}.

(** The collaborators of [fixed_index] with a scorer that returns no
    score at all. *)
Definition scorer_silent (docs : list string) : runtime :=
  {| list_set := first_seen_order; tk := char_tiktoken; nan_sort := as_found;
     services :=
       {| encode := encode (fixed_index docs);
          index_query := index_query (fixed_index docs);
          predict := fun _ _ => inr [];
          chat_create := chat_create (fixed_index docs) |} |}.

(** A refusal of a connection, as a client raises it. *)
Definition refused : exn := Exn "ConnectionError" "connection refused".

(** Decimal reading of a port number: only the default text is known. *)
Definition int_of_port (text : string) : exn + Z :=
  if String.eqb text "8000" then inr 8000
  else inl (Exn "ValueError" ("invalid literal for int() with base 10: '" +:+ text +:+ "'")).

(** A machine where persistent storage exists exactly at the paths
    [stored], a server listens exactly when [docker_up], and the
    variables are those of [vars]; a collection is named by its place. *)
Definition machine (stored : list string) (docker_up : bool)
    (vars : gmap string string) : Database.environment string :=
  {| Database.cloud_chroma_path := "/app/chroma_db";
     Database.path_exists := fun path => bool_decide (path ∈ stored);
     Database.persistent_collection := fun path _ =>
       if bool_decide (path ∈ stored) then inr path else inl refused;
     Database.http_collection := fun host _ _ =>
       if docker_up then inr host else inl refused;
     Database.getenv := fun name => vars !! name;
     Database.int_of_str := int_of_port |}.

(** Loaders that all succeed; the client is named by its key. *)
Definition good_loaders : App.loaders string string string :=
  {| App.load_embedding_model := inr "all-MiniLM-L6-v2";
     App.load_reranker := inr "cross-encoder/ms-marco-MiniLM-L-6-v2";
     App.groq_constructor := fun api_key => inr api_key |}.

End Demo.

(** * Properties *)

Import Text Re Expand Meta Dedup PySort Rerank Budget Effects Engine.

(** ** The context budgeter *)

Section BudgetProofs.

Variable enc : encoder.

Lemma chunk_tokens_nonneg c : 0 <= chunk_tokens enc c.
Proof. unfold chunk_tokens. lia. Qed.

Lemma total_tokens_app l1 l2 :
  total_tokens enc (l1 ++ l2) = total_tokens enc l1 + total_tokens enc l2.
Proof.
  induction l1 as [|c l1 IH]; simpl; [lia|].
  rewrite IH. lia.
Qed.

Lemma total_tokens_nonneg l : 0 <= total_tokens enc l.
Proof.
  induction l as [|c l IH]; simpl; [lia|].
  pose proof (chunk_tokens_nonneg c). lia.
Qed.

(** Loop invariant: the loop extends [context] by a prefix of the chunks
    still to visit, keeps [token_count] equal to the cost of the selection,
    and stops only at the end or at a chunk that does not fit. *)
Lemma limit_loop_spec max_tokens chunks :
  forall context token_count,
    token_count <= max_tokens ->
    exists taken rest,
      chunks = taken ++ rest /\
      limit_loop enc max_tokens chunks context token_count
        = (context ++ taken, token_count + total_tokens enc taken) /\
      token_count + total_tokens enc taken <= max_tokens /\
      match rest with
      | [] => True
      | c :: _ =>
          token_count + total_tokens enc taken + chunk_tokens enc c > max_tokens
      end.
Proof.
  induction chunks as [|chunk rest IH]; intros context token_count Hle.
  - exists [], []. simpl. rewrite app_nil_r. repeat split; [f_equal; lia | lia].
  - simpl. destruct (Z.gtb_spec (token_count + chunk_tokens enc chunk) max_tokens)
      as [Hgt|Hfit].
    + exists [], (chunk :: rest). simpl. rewrite app_nil_r.
      repeat split; [f_equal; lia | lia | lia].
    + destruct (IH (context ++ [chunk]) (token_count + chunk_tokens enc chunk) Hfit)
        as (taken & rest' & Heq & Hrun & Hbud & Hstop).
      exists (chunk :: taken), rest'. simpl.
      split; [by rewrite Heq|].
      split; [rewrite Hrun, <- app_assoc; simpl; f_equal; lia|].
      split; [lia|].
      destruct rest'; [done|]. lia.
Qed.

(** A first chunk that alone exceeds the budget empties the selection. *)
Lemma limit_loop_first_too_big max_tokens chunk rest :
  chunk_tokens enc chunk > max_tokens ->
  limit_loop enc max_tokens (chunk :: rest) [] 0 = ([], 0).
Proof.
  intros Hbig. simpl.
  destruct (Z.gtb_spec (0 + chunk_tokens enc chunk) max_tokens); [done | lia].
Qed.

(** Below zero the budget cannot be met: the selection is empty and its
    count 0 is above [max_tokens]. *)
Remark limit_loop_negative_budget max_tokens chunks :
  max_tokens < 0 -> limit_loop enc max_tokens chunks [] 0 = ([], 0).
Proof.
  intros Hneg. destruct chunks as [|chunk rest]; [done|]. simpl.
  pose proof (chunk_tokens_nonneg chunk).
  destruct (Z.gtb_spec (0 + chunk_tokens enc chunk) max_tokens); [done | lia].
Qed.

End BudgetProofs.

(** C1. For a token budget [max_tokens] (a non-negative count),
    [limit_context] returns a prefix of the ranked chunks together with the
    token cost of that prefix, the cost is at most [max_tokens], and the
    chunk right after the prefix, if there is one, is the first one that
    would push the total over the budget: selection stops there and no
    later chunk is tried. With five chunks of 1000 tokens each and a
    budget of 3500 the result is the first three chunks and 3000. *)
Theorem limit_context_greedy_prefix (tk : tiktoken) (model : string)
    (chunks : list string) (max_tokens : Z) :
  0 <= max_tokens ->
  let enc := select_encoder tk model in
  let result := limit_context tk chunks max_tokens model in
  (exists rest,
     chunks = result.1 ++ rest /\
     result.2 = total_tokens enc result.1 /\
     result.2 <= max_tokens /\
     match rest with
     | [] => True
     | c :: _ => result.2 + chunk_tokens enc c > max_tokens
     end) /\
  (forall c1 c2 c3 c4 c5,
     Forall (fun c => chunk_tokens enc c = 1000) [c1; c2; c3; c4; c5] ->
     limit_context tk [c1; c2; c3; c4; c5] 3500 model = ([c1; c2; c3], 3000)).
Proof.
  intros Hbudget enc result. split.
  - destruct (limit_loop_spec enc max_tokens chunks [] 0 Hbudget)
      as (taken & rest & Heq & Hrun & Hbud & Hstop).
    subst result. unfold limit_context. fold enc. rewrite Hrun. simpl.
    exists rest. split; [done|]. split; [lia|]. split; [lia|].
    destruct rest; [done | lia].
  - intros c1 c2 c3 c4 c5 Hcost.
    repeat (apply Forall_cons_1 in Hcost as [? Hcost]).
    unfold limit_context. fold enc. simpl.
    repeat match goal with H : chunk_tokens enc _ = 1000 |- _ => rewrite H; clear H end.
    reflexivity.
Qed.

Lemma limit_context_greedy_prefix_witness :
  limit_context Demo.char_tiktoken
    ["1"; "2";
     "3"; "4";
     "5"] 3500 "gpt-3.5-turbo"
  = (["1"; "2";
      "3"], 3000).
Proof.
  refine (proj2 (limit_context_greedy_prefix Demo.char_tiktoken "gpt-3.5-turbo"
                   ["1"; "2";
                    "3"; "4";
                    "5"] 3500 _) _ _ _ _ _ _).
  - lia.
  - repeat constructor; vm_compute; reflexivity.
Defined.

(** ** Deduplication *)

Section DedupProofs.

Implicit Types (pairs kept : list (string * metadata)) (seen : gset string).

(** Loop invariant: the loop appends to its two output lists the two
    projections of a list [kept] of pairs, which is a subsequence of the
    pairs still to visit, has distinct texts none of which was seen
    before, covers every unseen text, and holds of each text the pair
    that comes first. *)
Lemma dedupe_loop_spec pairs :
  forall seen unique_chunks unique_metadatas,
  exists kept,
    dedupe_loop pairs seen unique_chunks unique_metadatas
      = (unique_chunks ++ kept.*1, unique_metadatas ++ kept.*2) /\
    kept `sublist_of` pairs /\
    NoDup kept.*1 /\
    (forall c, c ∈ kept.*1 -> c ∉ seen) /\
    (forall c, c ∈ pairs.*1 -> c ∈ seen \/ c ∈ kept.*1) /\
    (forall c m, (c, m) ∈ kept ->
       exists pre post, pairs = pre ++ (c, m) :: post /\ c ∉ pre.*1).
Proof.
  induction pairs as [|[chunk meta] rest IH]; intros seen uc um.
  - exists []. simpl. rewrite !app_nil_r.
    split; [done|]. split; [constructor|]. split; [constructor|].
    split; [intros c Hc; by apply elem_of_nil in Hc|].
    split; [intros c Hc; by apply elem_of_nil in Hc|].
    intros c m Hc. by apply elem_of_nil in Hc.
  - simpl. destruct (decide (chunk ∈ seen)) as [Hseen|Hnew].
    + destruct (IH seen uc um) as (kept & Hrun & Hsub & Hnd & Hfresh & Hcov & Hfirst).
      exists kept. split; [done|].
      split; [by apply sublist_cons|]. split; [done|]. split; [done|].
      split.
      * intros c Hc. apply elem_of_cons in Hc as [->|Hc]; [by left | by apply Hcov].
      * intros c m Hc. destruct (Hfirst c m Hc) as (pre & post & -> & Hpre).
        exists ((chunk, meta) :: pre), post. split; [done|].
        simpl. intros Hin. apply elem_of_cons in Hin as [->|Hin]; [|done].
        apply (Hfresh chunk); [|done].
        apply list_elem_of_fmap. exists (chunk, m). by split.
    + destruct (IH ({[chunk]} ∪ seen) (uc ++ [chunk]) (um ++ [meta]))
        as (kept & Hrun & Hsub & Hnd & Hfresh & Hcov & Hfirst).
      exists ((chunk, meta) :: kept).
      split; [rewrite Hrun; simpl; by rewrite <- !app_assoc|].
      split; [by apply sublist_skip|].
      split.
      { simpl. apply NoDup_cons. split; [|done].
        intros Hin. apply Hfresh in Hin. set_solver. }
      split.
      { intros c Hc. simpl in Hc. apply elem_of_cons in Hc as [->|Hc]; [done|].
        apply Hfresh in Hc. set_solver. }
      split.
      { intros c Hc. simpl in Hc. apply elem_of_cons in Hc as [->|Hc].
        - right. simpl. apply elem_of_cons. by left.
        - destruct (Hcov c Hc) as [Hs|Hk].
          + apply elem_of_union in Hs as [Hs|Hs].
            * apply elem_of_singleton in Hs as ->. right. simpl.
              apply elem_of_cons. by left.
            * by left.
          + right. simpl. apply elem_of_cons. by right. }
      intros c m Hc. apply elem_of_cons in Hc as [Heq|Hc].
      * inversion Heq; subst. exists [], rest. split; [done|].
        simpl. apply not_elem_of_nil.
      * destruct (Hfirst c m Hc) as (pre & post & -> & Hpre).
        exists ((chunk, meta) :: pre), post. split; [done|].
        simpl. intros Hin. apply elem_of_cons in Hin as [->|Hin]; [|done].
        assert (chunk ∈ kept.*1) as Hk.
        { apply list_elem_of_fmap. exists (chunk, m). by split. }
        apply Hfresh in Hk. set_solver.
Qed.

End DedupProofs.

(** C9. Deduplication of two parallel lists (read in step, as [zip] does)
    keeps a subsequence of the input pairs, so the survivors are in their
    input order and are at most as many as the input; the surviving texts
    are pairwise distinct and are exactly the texts of the input; and the
    pair that survives for a text is the first pair carrying that text:
    no pair before it in the input has the same text, whatever metadata
    the later pairs with that text carry. *)
Theorem dedupe_first_occurrence (all_chunks : list string)
    (all_metadatas : list metadata) :
  let pairs := zip all_chunks all_metadatas in
  let result := dedupe all_chunks all_metadatas in
  length result.1 = length result.2 /\
  zip result.1 result.2 `sublist_of` pairs /\
  (length result.1 <= length all_chunks)%nat /\
  NoDup result.1 /\
  (forall c, c ∈ result.1 <-> c ∈ pairs.*1) /\
  (forall c m, (c, m) ∈ zip result.1 result.2 ->
     exists pre post, pairs = pre ++ (c, m) :: post /\ c ∉ pre.*1).
Proof.
  intros pairs result.
  destruct (dedupe_loop_spec pairs ∅ [] [])
    as (kept & Hrun & Hsub & Hnd & Hfresh & Hcov & Hfirst).
  subst result. unfold dedupe. fold pairs. rewrite Hrun. simpl.
  rewrite zip_fst_snd.
  split; [by rewrite !length_fmap|].
  split; [done|].
  split.
  { rewrite length_fmap. apply sublist_length in Hsub.
    subst pairs. rewrite length_zip in Hsub. lia. }
  split; [done|].
  split; [|done].
  intros c. split.
  - intros Hc. apply list_elem_of_fmap in Hc as ([c' m] & -> & Hc).
    apply list_elem_of_fmap. exists (c', m). split; [done|].
    by eapply elem_of_sublist.
  - intros Hc. destruct (Hcov c Hc) as [Hs|Hk]; [set_solver | done].
Qed.

(** ** The reverse stable sort *)

Section FloatOrder.

Lemma py_lt_le a b : py_lt a b = true -> py_le a b = true.
Proof.
  destruct a as [x| | |], b as [y| | |]; simpl; try done.
  rewrite negb_true_iff. intros E.
  destruct (Qle_bool x y) eqn:E'; [done|]. exfalso.
  assert (~ (y <= x)%Q) as H1 by (rewrite <- Qle_bool_iff; congruence).
  assert (~ (x <= y)%Q) as H2 by (rewrite <- Qle_bool_iff; congruence).
  apply Qnot_le_lt in H1. by apply H2, Qlt_le_weak.
Qed.

Lemma py_lt_false_le a b :
  is_number a = true -> is_number b = true -> py_lt a b = false -> py_le b a = true.
Proof.
  destruct a as [x| | |], b as [y| | |]; simpl; try done.
  intros _ _. by rewrite negb_false_iff.
Qed.

Lemma py_le_trans a b c : py_le a b = true -> py_le b c = true -> py_le a c = true.
Proof.
  destruct a as [x| | |], b as [y| | |], c as [z| | |]; simpl; try done.
  rewrite !Qle_bool_iff. apply Qle_trans.
Qed.

Lemma py_lt_not_tied a b k :
  py_eq a k = true -> py_eq b k = true -> py_lt a b = false.
Proof.
  destruct a as [x| | |], b as [y| | |], k as [z| | |]; simpl; try done.
  intros Hx Hy. apply Qeq_bool_iff in Hx, Hy. rewrite negb_false_iff.
  apply Qle_bool_iff. rewrite Hx, Hy. apply Qle_refl.
Qed.

Lemma py_eq_is_number a k : py_eq a k = true -> is_number a = true.
Proof. by destruct a, k. Qed.

End FloatOrder.

Section SortProofs.

Context {A : Type}.
Variable key : A -> score.

Let numbers : list A -> Prop := Forall (fun x => is_number (key x) = true).

Lemma insert_asc_perm x l : Permutation (insert_asc key x l) (x :: l).
Proof.
  induction l as [|y l IH]; simpl; [done|].
  destruct (key_lt key y x); [|done].
  rewrite IH. apply perm_swap.
Qed.

Lemma sort_asc_perm l : Permutation (sort_asc key l) l.
Proof.
  induction l as [|x l IH]; simpl; [done|].
  rewrite insert_asc_perm. by constructor.
Qed.

Lemma insert_asc_ascending x l :
  is_number (key x) = true -> numbers l ->
  ascending key l -> ascending key (insert_asc key x l).
Proof.
  unfold ascending, numbers. intros Hx Hnum Hasc.
  induction Hasc as [|y l Hl IH Hy]; simpl.
  - repeat constructor.
  - apply Forall_cons_1 in Hnum as [Hny Hnum].
    destruct (key_lt key y x) eqn:E.
    + constructor; [by apply IH|].
      rewrite insert_asc_perm. constructor; [|done].
      by apply py_lt_le.
    + apply py_lt_false_le in E; [|done..].
      constructor; [by constructor|].
      constructor; [done|].
      eapply Forall_impl; [exact Hy|]. intros z Hz. simpl in Hz.
      by apply (py_le_trans _ (key y)).
Qed.

Lemma sort_asc_ascending l : numbers l -> ascending key (sort_asc key l).
Proof.
  unfold numbers. induction 1 as [|x l Hx Hl IH]; simpl; [constructor|].
  apply insert_asc_ascending; [done| |done].
  unfold numbers. by rewrite sort_asc_perm.
Qed.

Lemma ascending_snoc l x :
  descending key l -> Forall (fun y => py_le (key x) (key y) = true) l ->
  descending key (l ++ [x]).
Proof.
  unfold descending. induction 1 as [|y l Hl IH Hy]; intros Hx; simpl.
  - repeat constructor.
  - apply Forall_cons_1 in Hx as [Hxy Hx]. constructor; [by apply IH|].
    apply Forall_app. split; [done|]. by repeat constructor.
Qed.

Lemma ascending_rev l : ascending key l -> descending key (rev l).
Proof.
  unfold ascending. induction 1 as [|y l Hl IH Hy]; simpl; [constructor|].
  apply ascending_snoc; [done|].
  apply Forall_forall. intros z Hz. rewrite Forall_forall in Hy.
  apply Hy. apply list_elem_of_In, in_rev, list_elem_of_In. done.
Qed.

(** Insertion does not move an element past another one with the same key. *)
Lemma insert_asc_ties k x l :
  List.filter (ties_with key k) (insert_asc key x l) = List.filter (ties_with key k) (x :: l).
Proof.
  induction l as [|y l IH]; [done|].
  simpl insert_asc. destruct (key_lt key y x) eqn:E; [|done].
  change (List.filter (ties_with key k) (y :: insert_asc key x l))
    with (if ties_with key k y then y :: List.filter (ties_with key k) (insert_asc key x l)
          else List.filter (ties_with key k) (insert_asc key x l)).
  rewrite IH. simpl.
  destruct (ties_with key k y) eqn:Ey, (ties_with key k x) eqn:Ex; try done.
  exfalso. unfold ties_with in Ey, Ex. unfold key_lt in E.
  rewrite (py_lt_not_tied _ _ _ Ey Ex) in E. discriminate.
Qed.

Lemma sort_asc_ties k l :
  List.filter (ties_with key k) (sort_asc key l) = List.filter (ties_with key k) l.
Proof.
  induction l as [|x l IH]; [done|].
  simpl sort_asc. rewrite insert_asc_ties. simpl. by rewrite IH.
Qed.

Lemma filter_rev_eq (f : A -> bool) l :
  List.filter f (rev l) = rev (List.filter f l).
Proof.
  induction l as [|x l IH]; [done|].
  simpl. rewrite List.filter_app, IH. simpl.
  destruct (f x); simpl; [done | by rewrite app_nil_r].
Qed.

Lemma sorted_reverse_descending l : numbers l -> descending key (sorted_reverse key l).
Proof.
  intros Hnum. apply ascending_rev, sort_asc_ascending.
  unfold numbers. by rewrite <- Permutation_rev.
Qed.

Lemma sorted_reverse_perm l : Permutation (sorted_reverse key l) l.
Proof.
  unfold sorted_reverse.
  rewrite <- Permutation_rev, sort_asc_perm. symmetry. apply Permutation_rev.
Qed.

Lemma sorted_reverse_stable k l :
  List.filter (ties_with key k) (sorted_reverse key l) = List.filter (ties_with key k) l.
Proof.
  unfold sorted_reverse.
  by rewrite filter_rev_eq, sort_asc_ties, filter_rev_eq, rev_involutive.
Qed.

End SortProofs.

Section BuiltinSortProofs.

Context {A : Type}.
Variable key : A -> score.

Lemma py_sorted_reverse_numbers nan_sort (l : list A) :
  Forall (fun x => is_number (key x) = true) l ->
  py_sorted_reverse nan_sort key l = sorted_reverse key l.
Proof.
  intros Hnum. unfold py_sorted_reverse.
  destruct (forallb (fun x => is_number (key x)) l) eqn:E; [done|].
  exfalso. apply not_true_iff_false in E. apply E.
  apply forallb_forall. intros x Hx. rewrite Forall_forall in Hnum.
  by apply Hnum, list_elem_of_In.
Qed.

Lemma py_sorted_reverse_perm nan_sort (l : list A) :
  permutes nan_sort -> Permutation (py_sorted_reverse nan_sort key l) l.
Proof.
  intros Hperm. unfold py_sorted_reverse.
  destruct (forallb _ l); [apply sorted_reverse_perm | apply Hperm].
Qed.

End BuiltinSortProofs.

Section SortedFacts.

Context {A : Type}.

Lemma StronglySorted_impl_in (R R' : A -> A -> Prop) (l : list A) :
  (forall x y, x ∈ l -> y ∈ l -> R x y -> R' x y) ->
  StronglySorted R l -> StronglySorted R' l.
Proof.
  intros Himpl Hs. induction Hs as [|x l Hs IH Hx]; [constructor|].
  constructor.
  - apply IH. intros a b Ha Hb. apply Himpl; by right.
  - rewrite Forall_forall in Hx. apply Forall_forall. intros y Hy.
    apply Himpl; [by left | by right | by apply Hx].
Qed.

(** In a sorted list any two distinct elements are related one way or
    the other. *)
Lemma StronglySorted_related (R : A -> A -> Prop) (l : list A) x y :
  StronglySorted R l -> x ∈ l -> y ∈ l -> x = y \/ R x y \/ R y x.
Proof.
  intros Hs. induction Hs as [|a l Hs IH Ha]; intros Hx Hy.
  - by apply elem_of_nil in Hx.
  - rewrite Forall_forall in Ha.
    apply elem_of_cons in Hx as [->|Hx]; apply elem_of_cons in Hy as [->|Hy]; auto.
Qed.

End SortedFacts.

Lemma zip3_score_in (unique_chunks : list string) (unique_metadatas : list metadata)
    (scores : list score) x :
  x ∈ zip3 unique_chunks unique_metadatas scores -> score_of x ∈ scores.
Proof.
  unfold zip3. destruct x as [cm s]. intros Hx. simpl.
  by apply elem_of_zip_r in Hx.
Qed.

Lemma zip3_numbers (unique_chunks : list string) (unique_metadatas : list metadata)
    (scores : list score) :
  Forall (fun s => s <> NaN) scores ->
  Forall (fun x => is_number (score_of x) = true)
    (zip3 unique_chunks unique_metadatas scores).
Proof.
  intros Hnum. apply Forall_forall. intros x Hx. apply zip3_score_in in Hx.
  rewrite Forall_forall in Hnum. apply Hnum in Hx. by destruct (score_of x).
Qed.

(** C8, what the code does with a NaN score: for the scores 1.0, NaN,
    2.0 of the chunks A, B, C no arrangement of the three triples is
    non-increasing, because NaN compares false with every number; so
    whatever the interpreter's sort does with them, the reranked list is
    not sorted. An interpreter that leaves such a list as it finds it
    returns A, B, C. *)
Lemma rerank_nan_score_unsorted :
  map chunk_of (rerank Demo.as_found ["A"; "B"; "C"] [∅; ∅; ∅] [Num 1; NaN; Num 2])
    = ["A"; "B"; "C"] /\
  forall nan_sort,
    permutes nan_sort ->
    ~ StronglySorted (fun x y => py_le (score_of y) (score_of x) = true)
        (rerank nan_sort ["A"; "B"; "C"] [∅; ∅; ∅] [Num 1; NaN; Num 2]).
Proof.
  split; [reflexivity|].
  intros nan_sort Hperm Hsorted.
  change (rerank nan_sort ["A"; "B"; "C"] [∅; ∅; ∅] [Num 1; NaN; Num 2])
    with (nan_sort [("A", ∅, Num 1); ("B", ∅, NaN); ("C", ∅, Num 2)] : list scored)
    in Hsorted.
  pose proof (Hperm [("A", ∅, Num 1); ("B", ∅, NaN); ("C", ∅, Num 2)]) as Hp.
  destruct (StronglySorted_related _ _ ("A", ∅, Num 1) ("B", ∅, NaN) Hsorted)
    as [Heq|[Hle|Hle]]; try discriminate.
  - rewrite Hp. by left.
  - rewrite Hp. right. by left.
Qed.

(** C8, amended. Whatever the chunks and their metadata, for every list of
    scores that holds no NaN the reranked sequence holds the scored
    triples (in a permutation), is sorted non-increasing by score, and is
    stable: for every score value, the triples with that score come in
    the order they have after deduplication. With scores 0.2, 0.9, 0.5
    for the chunks A, B, C the output order is B, C, A. *)
Theorem rerank_sorted_stable (nan_sort : list scored -> list scored)
    (unique_chunks : list string) (unique_metadatas : list metadata)
    (scores : list score) :
  Forall (fun s => s <> NaN) scores ->
  let scored_chunks := zip3 unique_chunks unique_metadatas scores in
  let reranked := rerank nan_sort unique_chunks unique_metadatas scores in
  StronglySorted (fun x y => py_le (score_of y) (score_of x) = true) reranked /\
  Permutation reranked scored_chunks /\
  (forall s : score,
     List.filter (fun x => py_eq (score_of x) s) reranked
     = List.filter (fun x => py_eq (score_of x) s) scored_chunks) /\
  (forall (a b c : string) (ma mb mc : metadata),
     map chunk_of
       (rerank nan_sort [a; b; c] [ma; mb; mc] [Num (2 # 10); Num (9 # 10); Num (5 # 10)])
     = [b; c; a]).
Proof.
  intros Hnum scored_chunks reranked.
  pose proof (zip3_numbers unique_chunks unique_metadatas scores Hnum) as Hl.
  fold scored_chunks in Hl.
  assert (reranked = sorted_reverse score_of scored_chunks)
    as Hrun by (by apply py_sorted_reverse_numbers).
  split; [rewrite Hrun; by apply (sorted_reverse_descending score_of)|].
  split; [rewrite Hrun; apply sorted_reverse_perm|].
  split; [|reflexivity].
  intros s. rewrite Hrun. apply (sorted_reverse_stable score_of s).
Qed.

Lemma rerank_sorted_stable_witness :
  map chunk_of
    (rerank Demo.as_found ["A"; "B"; "C"] [∅; ∅; ∅]
       [Num (2 # 10); Num (9 # 10); Num (5 # 10)])
    = ["B"; "C"; "A"].
Proof.
  refine (proj2 (proj2 (proj2
            (rerank_sorted_stable Demo.as_found ["A"; "B"; "C"] [∅; ∅; ∅]
               [Num (2 # 10); Num (9 # 10); Num (5 # 10)] _)))
            "A" "B" "C" ∅ ∅ ∅).
  repeat constructor; discriminate.
Defined.

(** ** The answer synthesizer and the top-level entry point *)

Section TextFacts.

Lemma prefix_refl s : String.prefix s s = true.
Proof.
  induction s as [|c s IH]; simpl; [done|].
  destruct (Ascii.ascii_dec c c); [done | congruence].
Qed.

Lemma contains_refl s : contains s s = true.
Proof.
  destruct s as [|c s]; [reflexivity|].
  unfold contains; fold contains. by rewrite prefix_refl.
Qed.

Lemma contains_app_r a b : contains (a +:+ b) b = true.
Proof.
  induction a as [|c a IH]; simpl.
  - apply contains_refl.
  - rewrite IH. apply orb_true_r.
Qed.

End TextFacts.

Section EngineProofs.

Variable R : runtime.

Lemma run_bind {A B} (c : M A) (k : A -> M B) t :
  (c ≫= k) t =
  match c t with
  | (inl e, t') => (inl e, t')
  | (inr a, t') => k a t'
  end.
Proof. reflexivity. Qed.

(** The synthesizer makes exactly one call, to the LLM backend; it hands
    on the content of the first choice, turns an instance of [Exception]
    (also the failed indexing of an empty list of choices) into an error
    string, and lets any other exception through. *)
Lemma groq_llm_inference_run prompt t :
  groq_llm_inference R prompt t =
  (match chat_create (services R) t (chat_request_of prompt) with
   | inr (content :: _) => inr content
   | inr [] => inr (Text (LLM_ERROR_PREFIX +:+ exn_msg IndexError))
   | inl (Exc e) => inr (Text (LLM_ERROR_PREFIX +:+ exn_msg e))
   | inl (BaseExc e) => inl (BaseExc e)
   end,
   t ++ [EvChat (chat_request_of prompt)]).
Proof.
  unfold groq_llm_inference, try_except. rewrite run_bind. unfold call.
  destruct (chat_create (services R) t (chat_request_of prompt))
    as [[e|e]|[|content rest]]; reflexivity.
Qed.

(** What [query_chatbot] returns when it returns: the fixed message, or
    what the synthesizer returned for some prompt. *)
Lemma query_chatbot_returns user_question debug t answer t' :
  query_chatbot R user_question debug t = (inr answer, t') ->
  answer = Text NO_INFO_MESSAGE \/
  exists prompt t0, groq_llm_inference R prompt t0 = (inr answer, t').
Proof.
  unfold query_chatbot. rewrite run_bind.
  destruct (retrieve_loop R _ _ [] [] t) as [[e|[all_chunks all_metadatas]] t1];
    [discriminate|].
  destruct all_chunks as [|c0 all_chunks].
  - unfold ret. intros [= <- <-]. by left.
  - destruct (dedupe (c0 :: all_chunks) all_metadatas) as [uc um].
    rewrite run_bind. unfold call at 1.
    destruct (predict (services R) t1 _) as [e|scores]; [discriminate|].
    rewrite run_bind.
    destruct debug, (rerank (nan_sort R) uc um scores) as [|top rest] eqn:Hr;
      try (unfold raise; discriminate); unfold ret at 1;
      destruct (limit_context _ _ _ _) as [limited n];
      intros Hrun; right; eauto.
Qed.

(** [query_chatbot] itself lets a failure of a collaborator through: here,
    of the embedding model at the first consumed query. *)
Remark query_chatbot_propagates user_question debug t query rest e :
  take 3 (expand_query (list_set R) user_question) = query :: rest ->
  encode (services R) t query = inl e ->
  query_chatbot R user_question debug t = (inl e, t ++ [EvEncode query]).
Proof.
  intros Hq He. unfold query_chatbot. rewrite Hq, run_bind.
  simpl retrieve_loop. rewrite run_bind. unfold call at 1. by rewrite He.
Qed.

(** With collaborators that raise instances of [Exception] only, the
    pipeline raises instances of [Exception] only. *)
Lemma retrieve_loop_raises_exc n_results queries :
  raises_exceptions_only (services R) ->
  forall all_chunks all_metadatas t r t',
    retrieve_loop R n_results queries all_chunks all_metadatas t = (inl r, t') ->
    exists e, r = Exc e.
Proof.
  intros (Henc & Hidx & _). induction queries as [|query rest IH];
    intros chunks metas t r t'; [discriminate|].
  simpl retrieve_loop. rewrite run_bind. unfold call at 1.
  destruct (encode (services R) t query) as [[e|e]|v] eqn:He.
  { intros [= <- _]. eauto. }
  { by apply Henc in He. }
  rewrite run_bind. unfold call at 1.
  destruct (index_query (services R) (t ++ [EvEncode query]) v n_results)
    as [[e|e]|results] eqn:Hr.
  { intros [= <- _]. eauto. }
  { by apply Hidx in Hr. }
  destruct (documents results) as [[|[|d ds] dss]|]; try apply IH.
  destruct (metadatas results) as [[|ms mss]|]; try apply IH;
    unfold raise; intros [= <- _]; eauto.
Qed.

Lemma query_chatbot_raises_exc user_question debug t r t' :
  raises_exceptions_only (services R) ->
  query_chatbot R user_question debug t = (inl r, t') ->
  exists e, r = Exc e.
Proof.
  intros Hexc. pose proof Hexc as (_ & _ & Hpred & Hchat).
  unfold query_chatbot. rewrite run_bind.
  destruct (retrieve_loop R _ _ [] [] t) as [[r0|[all_chunks all_metadatas]] t1] eqn:Hret.
  { intros [= <- _]. by eapply retrieve_loop_raises_exc. }
  destruct all_chunks as [|c0 all_chunks]; [discriminate|].
  destruct (dedupe (c0 :: all_chunks) all_metadatas) as [uc um].
  rewrite run_bind. unfold call at 1.
  destruct (predict (services R) t1 _) as [[e|e]|scores] eqn:Hp.
  { intros [= <- _]. eauto. }
  { by apply Hpred in Hp. }
  rewrite run_bind.
  destruct debug, (rerank (nan_sort R) uc um scores) as [|top rest];
    try (unfold raise; intros [= <- _]; by eauto);
    unfold ret at 1; destruct (limit_context _ _ _ _) as [limited n];
    rewrite groq_llm_inference_run;
    destruct (chat_create (services R) _ _) as [[e|e]|[|content others]] eqn:Hc;
    try discriminate; by apply Hchat in Hc.
Qed.

Lemma groq_llm_inference_text prompt t answer t' :
  completions_have_text (services R) ->
  groq_llm_inference R prompt t = (inr answer, t') ->
  exists s, answer = Text s.
Proof.
  intros Htext. rewrite groq_llm_inference_run.
  destruct (chat_create (services R) t _) as [[e|e]|[|[s|] others]] eqn:Hc;
    intros [= <- _]; eauto.
  by apply Htext in Hc.
Qed.

End EngineProofs.

(** C3, what the code does when the LLM backend raises an exception that
    is no instance of [Exception]: an interrupt from the keyboard during
    the backend call passes the [except Exception] clause and leaves the
    synthesizer as a raised exception. *)
Lemma groq_llm_inference_interrupted :
  groq_llm_inference (Demo.backend_interrupted []) "prompt" []
    = (inl (BaseExc (Exn "KeyboardInterrupt" "")),
       [EvChat (chat_request_of "prompt")]).
Proof. reflexivity. Qed.

(** C3, amended. Whatever the prompt, and whatever the LLM backend does
    short of raising an exception outside the class [Exception], the
    synthesizer returns and raises nothing: when the backend returns a
    completion, the content of its first choice (for a completion without
    choices, the error string of the failed indexing); when the backend
    call raises, a string that begins with the warning marker and
    contains the text of the exception. *)
Theorem groq_llm_inference_catches_exceptions (R : runtime) (prompt : string)
    (t : trace) :
  (forall e, chat_create (services R) t (chat_request_of prompt) <> inl (BaseExc e)) ->
  exists answer t',
    groq_llm_inference R prompt t = (inr answer, t') /\
    match chat_create (services R) t (chat_request_of prompt) with
    | inr (content :: _) => answer = content
    | inr [] => answer = Text (LLM_ERROR_PREFIX +:+ exn_msg IndexError)
    | inl (Exc e) =>
        exists text,
          answer = Text text /\
          text = LLM_ERROR_PREFIX +:+ exn_msg e /\
          String.prefix WARNING_MARKER text = true /\
          contains text (exn_msg e) = true
    | inl (BaseExc e) => False
    end.
Proof.
  intros Hexc. rewrite groq_llm_inference_run.
  destruct (chat_create (services R) t (chat_request_of prompt))
    as [[e|e]|[|content rest]] eqn:Hc.
  - eexists _, _. split; [reflexivity|]. eexists. split; [reflexivity|].
    split; [done|]. split; [reflexivity|]. apply contains_app_r.
  - by destruct (Hexc e).
  - eexists _, _. split; reflexivity.
  - eexists _, _. split; reflexivity.
Qed.

Lemma groq_llm_inference_catches_exceptions_witness :
  exists answer t',
    groq_llm_inference (Demo.fixed_runtime []) "prompt" [] = (inr answer, t') /\
    answer = Text "The answer.".
Proof.
  apply (groq_llm_inference_catches_exceptions (Demo.fixed_runtime []) "prompt" []).
  intros e. discriminate.
Defined.

(** C4, what the code does when a collaborator raises an exception that
    is no instance of [Exception], and when the completion has no
    content: an interrupt from the keyboard during the embedding call
    passes the [except Exception] clause of [process_query] and is raised
    to its caller; a completion whose content is [None] makes
    [process_query] return [None], which is no string. *)
Lemma process_query_interrupted :
  process_query (Demo.embedding_interrupted ["a"]) "q" []
    = (inl (BaseExc (Exn "KeyboardInterrupt" "")), [EvEncode "q"]) /\
  fst (process_query (Demo.backend_without_content ["a"]) "q" []) = inr NoContent.
Proof. split; vm_compute; reflexivity. Qed.

(** C4, amended. Whatever the question, and whatever the vector index, the
    embedding model, the reranker and the LLM backend do, as long as none
    of them raises an exception outside the class [Exception] and the
    completions carry a text, the top-level entry point [process_query]
    returns a string and raises nothing: the fixed
    no-relevant-information message, an answer of the synthesizer, or an
    error string made of the warning prefix and the text of the exception
    that [query_chatbot] let through. *)
Theorem process_query_catches_exceptions (R : runtime) (user_input : string)
    (t : trace) :
  raises_exceptions_only (services R) ->
  completions_have_text (services R) ->
  exists (answer : string) t',
    process_query R user_input t = (inr (Text answer), t') /\
    (answer = NO_INFO_MESSAGE \/
     (exists prompt t0, groq_llm_inference R prompt t0 = (inr (Text answer), t')) \/
     (exists e, query_chatbot R user_input false t = (inl (Exc e), t') /\
                answer = QUERY_ERROR_PREFIX +:+ exn_msg e /\
                String.prefix WARNING_MARKER answer = true)).
Proof.
  intros Hexc Htext. unfold process_query, try_except.
  destruct (query_chatbot R user_input false t) as [[r|answer] t'] eqn:Hrun.
  - destruct (query_chatbot_raises_exc R _ _ _ _ _ Hexc Hrun) as [e ->].
    eexists _, _. split; [reflexivity|]. right; right.
    exists e. split; [done|]. split; reflexivity.
  - destruct (query_chatbot_returns R _ _ _ _ _ Hrun) as [->|(prompt & t0 & Hsyn)].
    + eexists _, _. split; [reflexivity|]. by left.
    + destruct (groq_llm_inference_text R _ _ _ _ Htext Hsyn) as [text ->].
      exists text, t'. split; [reflexivity|]. right; left. eauto.
Qed.

Lemma process_query_catches_exceptions_witness :
  exists (answer : string) t',
    process_query (Demo.reranker_down ["a"]) "q" [] = (inr (Text answer), t') /\
    (answer = NO_INFO_MESSAGE \/
     (exists prompt t0,
        groq_llm_inference (Demo.reranker_down ["a"]) prompt t0
          = (inr (Text answer), t')) \/
     (exists e,
        query_chatbot (Demo.reranker_down ["a"]) "q" false [] = (inl (Exc e), t') /\
        answer = QUERY_ERROR_PREFIX +:+ exn_msg e /\
        String.prefix WARNING_MARKER answer = true)).
Proof.
  apply (process_query_catches_exceptions (Demo.reranker_down ["a"]) "q" []).
  - repeat split; intros; discriminate.
  - intros t0 request rest. discriminate.
Defined.

(** ** Empty retrieval and over-budget retrieval *)

Section RetrievalProofs.

Variable R : runtime.

(** When no answer of the index carries candidates, the retrieval loop
    leaves its accumulators as they are and records retrieval calls only. *)
Lemma retrieve_loop_no_candidates n_results queries :
  (forall t query, query ∈ queries -> exists v, encode (services R) t query = inr v) ->
  (forall t v n, exists results,
     index_query (services R) t v n = inr results /\ has_candidates results = false) ->
  forall all_chunks all_metadatas t,
  exists evs,
    retrieve_loop R n_results queries all_chunks all_metadatas t
      = (inr (all_chunks, all_metadatas), t ++ evs) /\
    forallb is_retrieval_event evs = true.
Proof.
  intros Henc Hidx. induction queries as [|query rest IH]; intros chunks metas t.
  - exists []. simpl. unfold ret. by rewrite app_nil_r.
  - destruct (Henc t query) as [v Hv]; [by left|].
    destruct (Hidx (t ++ [EvEncode query]) v n_results) as (results & Hres & Hnone).
    destruct IH with (all_chunks := chunks) (all_metadatas := metas)
      (t := (t ++ [EvEncode query]) ++ [EvQuery v n_results]) as (evs & Hrun & Hevs).
    { intros t' q Hq. apply Henc. by right. }
    exists ([EvEncode query; EvQuery v n_results] ++ evs).
    split; [|done].
    simpl retrieve_loop. rewrite run_bind. unfold call at 1. rewrite Hv.
    rewrite run_bind. unfold call at 1. rewrite Hres.
    unfold has_candidates in Hnone.
    replace (t ++ [EvEncode query; EvQuery v n_results] ++ evs)
      with (((t ++ [EvEncode query]) ++ [EvQuery v n_results]) ++ evs)
      by (by rewrite <- !app_assoc).
    destruct (documents results) as [[|[|d ds] dss]|]; try done.
Qed.

End RetrievalProofs.

(** C2. When the embedding of each consumed query succeeds and every answer
    of the vector index carries no candidates, [query_chatbot] returns the
    fixed no-relevant-information message, and the calls it made are
    retrieval calls only: none to the reranker and none to the LLM
    backend. *)
Theorem query_chatbot_no_candidates (R : runtime) (user_question : string)
    (debug : bool) (t : trace) :
  (forall t' query,
     query ∈ take 3 (expand_query (list_set R) user_question) ->
     exists v, encode (services R) t' query = inr v) ->
  (forall t' v n, exists results,
     index_query (services R) t' v n = inr results /\ has_candidates results = false) ->
  exists evs,
    query_chatbot R user_question debug t = (inr (Text NO_INFO_MESSAGE), t ++ evs) /\
    forallb is_retrieval_event evs = true /\
    (forall pairs, EvPredict pairs ∉ evs) /\
    (forall request, EvChat request ∉ evs).
Proof.
  intros Henc Hidx.
  destruct (retrieve_loop_no_candidates R
              (TOP_K `div` Z.of_nat (length (take 3 (expand_query (list_set R) user_question))))
              _ Henc Hidx [] [] t) as (evs & Hrun & Hevs).
  exists evs. split.
  - unfold query_chatbot. rewrite run_bind, Hrun. reflexivity.
  - split; [done|].
    rewrite forallb_forall in Hevs.
    split; intros x Hin; apply list_elem_of_In, Hevs in Hin; discriminate.
Qed.

Lemma query_chatbot_no_candidates_witness :
  exists evs,
    query_chatbot (Demo.fixed_runtime []) "What did AWOB001T:L0123S produce?" false []
      = (inr (Text NO_INFO_MESSAGE), [] ++ evs) /\
    forallb is_retrieval_event evs = true /\
    (forall pairs, EvPredict pairs ∉ evs) /\
    (forall request, EvChat request ∉ evs).
Proof.
  apply (query_chatbot_no_candidates (Demo.fixed_runtime [])).
  - intros t' query _. eexists. reflexivity.
  - intros t' v n. eexists. split; reflexivity.
Defined.

(** C10. When retrieval yields at least one candidate, scoring succeeds,
    and the top-ranked chunk alone costs more tokens than [MAX_TOKENS],
    [limit_context] returns the empty selection with count 0, and
    [query_chatbot] goes on: it composes the prompt of the template with
    nothing between the context heading and the question heading, sends
    it as the user message of the request to the LLM backend, and returns
    what the synthesizer makes of the backend's answer to that request,
    not the no-relevant-information message of the empty-retrieval
    exit. *)
Theorem query_chatbot_top_chunk_over_budget (R : runtime) (user_question : string)
    (debug : bool) (t t1 : trace) (all_chunks : list string)
    (all_metadatas : list metadata) (scores : list score) (top : scored)
    (rest : list scored) :
  let consumed := take 3 (expand_query (list_set R) user_question) in
  let n_results := TOP_K `div` Z.of_nat (length consumed) in
  let unique := dedupe all_chunks all_metadatas in
  let pairs := map (fun doc => (user_question, doc)) unique.1 in
  let prompt :=
    join NL
      ["You are analyzing petroleum engineering production data from a database.";
       "";
       "**IMPORTANT INSTRUCTIONS:**";
       "1. Answer based ONLY on the context provided below";
       "2. If you find specific data, cite it with exact values and units";
       "3. If data is missing or incomplete, clearly state what's missing";
       "4. For production queries, include: well name, flowstation, values with units";
       "5. For date-based queries, verify the date matches what was asked";
       "6. If you see multiple records, analyze all of them";
       "7. Be precise with numbers - don't round unnecessarily";
       "8. Use markdown tables for multiple data points";
       "";
       "**CONTEXT DATA:**";
       "";
       "";
       "**USER QUESTION:**";
       user_question;
       "";
       "**YOUR ANSWER:**"] in
  let request :=
    {| model := "llama-3.3-70b-versatile";
       system_content := SYSTEM_PROMPT;
       user_content := prompt;
       temperature := 3 # 10;
       max_completion_tokens := 1024;
       top_p := 9 # 10;
       stream := false |} in
  retrieve_loop R n_results consumed [] [] t = (inr (all_chunks, all_metadatas), t1) ->
  all_chunks <> [] ->
  predict (services R) t1 pairs = inr scores ->
  rerank (nan_sort R) unique.1 unique.2 scores = top :: rest ->
  chunk_tokens (select_encoder (tk R) "gpt-3.5-turbo") (chunk_of top) > MAX_TOKENS ->
  limit_context (tk R) (map chunk_of (top :: rest)) MAX_TOKENS "gpt-3.5-turbo" = ([], 0) /\
  join CONTEXT_SEPARATOR (context_parts [] (map meta_of (top :: rest))) = "" /\
  query_chatbot R user_question debug t
    = groq_llm_inference R prompt (t1 ++ [EvPredict pairs]) /\
  query_chatbot R user_question debug t
    = (match chat_create (services R) (t1 ++ [EvPredict pairs]) request with
       | inr (content :: _) => inr content
       | inr [] => inr (Text (LLM_ERROR_PREFIX +:+ exn_msg IndexError))
       | inl (Exc e) => inr (Text (LLM_ERROR_PREFIX +:+ exn_msg e))
       | inl (BaseExc e) => inl (BaseExc e)
       end,
       (t1 ++ [EvPredict pairs]) ++ [EvChat request]).
Proof.
  intros consumed n_results unique pairs prompt request Hret Hne Hscores Hrank Hbig.
  assert (limit_context (tk R) (map chunk_of (top :: rest)) MAX_TOKENS "gpt-3.5-turbo"
          = ([], 0)) as Hlimit.
  { unfold limit_context. simpl map. by apply limit_loop_first_too_big. }
  assert (prompt = build_prompt "" user_question) as Hprompt by reflexivity.
  assert (request = chat_request_of prompt) as Hrequest by reflexivity.
  assert (query_chatbot R user_question debug t
          = groq_llm_inference R prompt (t1 ++ [EvPredict pairs])) as Hrun.
  { rewrite Hprompt. clear Hprompt Hrequest. clearbody prompt. clear request prompt.
    unfold query_chatbot. fold consumed n_results. rewrite run_bind, Hret.
    destruct all_chunks as [|c0 cs]; [done|].
    subst unique pairs. destruct (dedupe (c0 :: cs) all_metadatas) as [uc um].
    cbn [fst snd] in Hscores, Hrank |- *. rewrite run_bind. unfold call at 1.
    rewrite Hscores.
    rewrite run_bind, Hrank.
    assert ((match debug with
             | true => ret ()
             | false => ret ()
             end : M ()) (t1 ++ [EvPredict (map (fun doc => (user_question, doc)) uc)])
            = (inr (), t1 ++ [EvPredict (map (fun doc => (user_question, doc)) uc)]))
      as -> by (by destruct debug).
    rewrite Hlimit. reflexivity. }
  split; [done|]. split; [reflexivity|]. split; [done|].
  rewrite Hrun, groq_llm_inference_run, <- Hrequest. reflexivity.
Qed.

Lemma query_chatbot_top_chunk_over_budget_witness :
  limit_context Demo.char_tiktoken ["chunk"] MAX_TOKENS "gpt-3.5-turbo"
    = ([], 0) /\
  query_chatbot (Demo.fixed_runtime ["chunk"]) "q" false []
    = (inr (Text "The answer."),
       [EvEncode "q"; EvQuery [] 30; EvPredict [("q", "chunk")];
        EvChat (chat_request_of (build_prompt "" "q"))]).
Proof.
  pose proof (query_chatbot_top_chunk_over_budget
                (Demo.fixed_runtime ["chunk"]) "q" false
                [] [EvEncode "q"; EvQuery [] 30]
                ["chunk"] [∅] [Num 1]
                ("chunk", ∅, Num 1) []) as H.
  cbv zeta in H.
  destruct H as (Hlimit & _ & _ & Hrun).
  - vm_compute; reflexivity.
  - discriminate.
  - vm_compute; reflexivity.
  - vm_compute; reflexivity.
  - vm_compute; reflexivity.
  - split; [exact Hlimit|].
    rewrite Hrun. vm_compute; reflexivity.
Defined.

(** ** Query expansion *)

Section ExpandProofs.

Lemma first_seen_order_ok : set_order_ok Demo.first_seen_order.
Proof.
  intros xs. split; [apply NoDup_remove_dups|].
  intros x. apply elem_of_remove_dups.
Qed.

(** A duplicate-free list whose only member is [q] is [[q]]. *)
Lemma NoDup_singleton_members (l : list string) q :
  NoDup l -> (forall x, x ∈ l <-> x = q) -> l = [q].
Proof.
  intros Hnd Hmem. destruct l as [|a l].
  - exfalso. by apply (not_elem_of_nil q), Hmem.
  - assert (a = q) as -> by (apply Hmem; by left).
    destruct l as [|b l]; [done|]. exfalso.
    assert (b = q) as -> by (apply Hmem; right; by left).
    apply NoDup_cons in Hnd as [Hnotin _]. apply Hnotin. by left.
Qed.

(** The date loop appends, in pattern order, one query for each pattern
    that matches. *)
Lemma expand_query_list_dates query :
  expand_query_list query =
  queries_before_dates query ++
  map date_query (omap (fun pattern => head (findall pattern query)) date_patterns).
Proof.
  unfold expand_query_list, date_patterns.
  generalize (queries_before_dates query). intros queries.
  cbn [foldl]. unfold date_step. simpl omap.
  destruct (findall iso_date_pattern query),
           (findall numeric_date_pattern query),
           (findall month_date_pattern query);
    simpl; rewrite <- ?app_assoc, ?app_nil_r; reflexivity.
Qed.

End ExpandProofs.

(** C5, what the code does at a question matching two pattern types: the
    question "1/2/2025 or October 5, 2025" matches the numeric pattern and
    the long-form pattern, and the result holds a date query for each,
    where the specification's wording allows only the first. *)
Lemma expand_query_two_date_queries :
  expand_query Demo.first_seen_order "1/2/2025 or October 5, 2025"
    = ["1/2/2025 or October 5, 2025"; "date 1/2/2025 production";
       "date October production"] /\
  spec_expand_query_list "1/2/2025 or October 5, 2025"
    = ["1/2/2025 or October 5, 2025"; "date 1/2/2025 production"] /\
  ~ (forall list_set query,
       set_order_ok list_set ->
       forall x, x ∈ expand_query list_set query -> x ∈ spec_expand_query_list query).
Proof.
  split; [vm_compute; reflexivity|]. split; [vm_compute; reflexivity|].
  intros Hclaim.
  pose proof (Hclaim Demo.first_seen_order "1/2/2025 or October 5, 2025"
                first_seen_order_ok "date October production") as H.
  assert ("date October production"
            ∈ expand_query Demo.first_seen_order "1/2/2025 or October 5, 2025") as Hin.
  { vm_compute. do 2 right. left. }
  apply H in Hin. vm_compute in Hin.
  repeat (apply elem_of_cons in Hin as [Hin|Hin]; [discriminate|]).
  by apply elem_of_nil in Hin.
Qed.

(** C5, amended. The date loop tries the three patterns in order (ISO,
    numeric with slash or dash, long-form month name) and appends one
    date query for every pattern that matches: for the ISO and for the
    numeric pattern the query "date <first match> production", for the
    long-form pattern one date query. The queries accumulate across the
    pattern types, and the result of [expand_query] holds exactly the
    queries present before the date loop and these date queries. *)
Theorem expand_query_date_queries (list_set : set_order) (query : string) :
  set_order_ok list_set ->
  exists long_form : list string,
    (findall month_date_pattern query = [] -> long_form = []) /\
    (findall month_date_pattern query <> [] -> exists d, long_form = [date_query d]) /\
    let dates :=
      match findall iso_date_pattern query with
      | d :: _ => [date_query d]
      | [] => []
      end ++
      match findall numeric_date_pattern query with
      | d :: _ => [date_query d]
      | [] => []
      end ++
      long_form in
    expand_query_list query = queries_before_dates query ++ dates /\
    forall x,
      x ∈ expand_query list_set query <->
      x ∈ queries_before_dates query \/ x ∈ dates.
Proof.
  intros Hok.
  exists (match findall month_date_pattern query with
          | d :: _ => [date_query d]
          | [] => []
          end).
  split; [by intros ->|]. split.
  { intros Hne. destruct (findall month_date_pattern query); [done | eauto]. }
  cbv zeta.
  assert (expand_query_list query =
          queries_before_dates query ++
          match findall iso_date_pattern query with
          | d :: _ => [date_query d]
          | [] => []
          end ++
          match findall numeric_date_pattern query with
          | d :: _ => [date_query d]
          | [] => []
          end ++
          match findall month_date_pattern query with
          | d :: _ => [date_query d]
          | [] => []
          end) as Hlist.
  { rewrite expand_query_list_dates. f_equal. unfold date_patterns. simpl omap.
    destruct (findall iso_date_pattern query),
             (findall numeric_date_pattern query),
             (findall month_date_pattern query); reflexivity. }
  split; [exact Hlist|].
  intros x. unfold expand_query.
  destruct (Hok (expand_query_list query)) as [_ Hmem].
  rewrite Hmem, Hlist. apply elem_of_app.
Qed.

Lemma expand_query_date_queries_witness :
  "date 2025-10-01 production"
    ∈ expand_query Demo.first_seen_order "from 1/2/2025 to 2025-10-01" /\
  "date 1/2/2025 production"
    ∈ expand_query Demo.first_seen_order "from 1/2/2025 to 2025-10-01".
Proof.
  destruct (expand_query_date_queries Demo.first_seen_order
              "from 1/2/2025 to 2025-10-01" first_seen_order_ok)
    as (long_form & _ & _ & _ & Hmem).
  split; apply Hmem; right.
  - apply elem_of_app. left. vm_compute. left.
  - apply elem_of_app. right. apply elem_of_app. left. vm_compute. left.
Defined.

(** C6, the code at a question that spells the keyword with a capital:
    "Flowstation" is found in the lowered question, but the replacement
    looks for the lower-case keyword in the question as typed and changes
    nothing, so the result holds the question alone and no variant with
    the canonical spelling; the same question in lower case does get its
    variant. *)
Theorem expand_query_capitalized_keyword (list_set : set_order) :
  set_order_ok list_set ->
  contains (lower "Awoba Flowstation output") "flowstation" = true /\
  replace "Awoba Flowstation output" "flowstation" "flowStation"
    = "Awoba Flowstation output" /\
  expand_query list_set "Awoba Flowstation output" = ["Awoba Flowstation output"] /\
  (forall x, x ∈ expand_query list_set "Awoba Flowstation output" ->
             contains x "flowStation" = false) /\
  "Awoba flowStation output" ∈ expand_query list_set "Awoba flowstation output".
Proof.
  intros Hok.
  assert (expand_query list_set "Awoba Flowstation output"
          = ["Awoba Flowstation output"]) as Hres.
  { unfold expand_query.
    destruct (Hok (expand_query_list "Awoba Flowstation output")) as [Hnd Hmem].
    apply NoDup_singleton_members; [done|].
    intros x. rewrite Hmem.
    change (expand_query_list "Awoba Flowstation output")
      with ["Awoba Flowstation output"; "Awoba Flowstation output"].
    rewrite !elem_of_cons, elem_of_nil. tauto. }
  split; [reflexivity|]. split; [reflexivity|]. split; [done|]. split.
  - intros x Hx. rewrite Hres in Hx. apply list_elem_of_singleton in Hx as ->.
    reflexivity.
  - unfold expand_query.
    destruct (Hok (expand_query_list "Awoba flowstation output")) as [_ Hmem].
    apply Hmem.
    change (expand_query_list "Awoba flowstation output")
      with ["Awoba flowstation output"; "Awoba flowStation output"].
    right; left.
Qed.

Lemma expand_query_capitalized_keyword_witness :
  expand_query Demo.first_seen_order "Awoba Flowstation output"
    = ["Awoba Flowstation output"].
Proof.
  apply (expand_query_capitalized_keyword Demo.first_seen_order first_seen_order_ok).
Defined.

(** ** The metadata summary of the prompt composer *)

Section MetaProofs.

Lemma string_app_assoc (a b c : string) : (a +:+ b) +:+ c = a +:+ (b +:+ c).
Proof.
  induction a as [|x a IH]; [reflexivity|].
  change (String x ((a +:+ b) +:+ c) = String x (a +:+ (b +:+ c))). by f_equal.
Qed.

Lemma string_app_empty_r (a : string) : a +:+ "" = a.
Proof.
  induction a as [|x a IH]; [reflexivity|].
  change (String x (a +:+ "") = String x a). by f_equal.
Qed.

Lemma has_key_lookup (meta : metadata) key :
  has_key meta key = match meta !! key with Some _ => true | None => false end.
Proof.
  unfold has_key. destruct (meta !! key) eqn:E.
  - apply bool_decide_eq_true. eauto.
  - apply bool_decide_eq_false. intros [v Hv]. discriminate.
Qed.

End MetaProofs.

(** C7, what the code does for metadata without a collection key: the
    summary of the empty metadata still carries a collection field, with
    the value "Unknown". *)
Lemma meta_summary_without_collection :
  (∅ : metadata) !! "collection" = None /\
  meta_summary ∅ = "[Collection: Unknown]".
Proof. split; reflexivity. Qed.

(** C7, amended. The summary always starts with the collection field,
    which holds the value of the collection key, or "Unknown" when that
    key is absent. It is followed, in this order, by the asset field, the
    flowstation field and the date field; each of these three is present
    exactly when its key (for flowstation and date: one of its two alias
    keys) is present, and is the empty text otherwise. The flowstation and
    date values are taken from the primary key ([flowStation], [date])
    unless that value is missing or falsy, in which case the alias is
    used. *)
Theorem meta_summary_fields (meta : metadata) :
  exists asset_field flowstation_field date_field : string,
    meta_summary meta =
      "[Collection: " +:+ py_str (default (SStr "Unknown") (meta !! "collection"))
      +:+ "]" +:+ asset_field +:+ flowstation_field +:+ date_field /\
    asset_field =
      match meta !! "asset" with
      | Some v => " [Asset: " +:+ py_str v +:+ "]"
      | None => ""
      end /\
    flowstation_field =
      match meta !! "flowStation", meta !! "flowstation" with
      | None, None => ""
      | _, _ =>
          " [Flowstation: "
          +:+ py_str (py_or (get meta "flowStation") (get meta "flowstation")) +:+ "]"
      end /\
    date_field =
      match meta !! "date", meta !! "productionDate" with
      | None, None => ""
      | _, _ =>
          " [Date: "
          +:+ py_str (py_or (get meta "date") (get meta "productionDate")) +:+ "]"
      end.
Proof.
  eexists _, _, _. split; [|split; [reflexivity|split; reflexivity]].
  unfold meta_summary, get_default. rewrite !has_key_lookup.
  unfold get.
  destruct (meta !! "asset"), (meta !! "flowStation"), (meta !! "flowstation"),
           (meta !! "date"), (meta !! "productionDate");
    cbn [orb default];
    rewrite ?string_app_assoc, ?string_app_empty_r; reflexivity.
Qed.

(** * Further properties of the code *)

Import Calls Database App.

(** ** Query expansion: members and size of the result *)

Section ExpandMembers.

(** The two loops of [expand_query] only append. *)
Lemma flowstation_step_keeps query queries keyword x :
  x ∈ queries -> x ∈ flowstation_step query queries keyword.
Proof.
  intros Hx. unfold flowstation_step.
  destruct (contains (lower query) keyword); [|done].
  apply elem_of_app. by left.
Qed.

Lemma date_step_keeps query queries pattern x :
  x ∈ queries -> x ∈ date_step query queries pattern.
Proof.
  intros Hx. unfold date_step.
  destruct (findall pattern query); [done|].
  apply elem_of_app. by left.
Qed.

Lemma foldl_keeps {B} (step : list string -> B -> list string) items :
  (forall queries item x, x ∈ queries -> x ∈ step queries item) ->
  forall queries x, x ∈ queries -> x ∈ foldl step queries items.
Proof.
  intros Hstep. induction items as [|item items IH]; intros queries x Hx; [done|].
  simpl. apply IH. by apply Hstep.
Qed.

Lemma queries_before_dates_keeps query x :
  x ∈ query :: well_queries (findall well_pattern (upper query)) ->
  x ∈ queries_before_dates query.
Proof.
  intros Hx. unfold queries_before_dates.
  apply foldl_keeps; [apply flowstation_step_keeps|]. exact Hx.
Qed.

Lemma expand_query_list_keeps query x :
  x ∈ queries_before_dates query -> x ∈ expand_query_list query.
Proof.
  intros Hx. unfold expand_query_list.
  apply foldl_keeps; [apply date_step_keeps|]. exact Hx.
Qed.

Lemma well_queries_members wells well :
  well ∈ wells ->
  "well " +:+ well ∈ well_queries wells /\ "production " +:+ well ∈ well_queries wells.
Proof.
  intros Hw. unfold well_queries.
  split; apply list_elem_of_In, in_flat_map; exists well;
    (split; [by apply list_elem_of_In|]); simpl; auto.
Qed.

Lemma well_queries_length wells :
  length (well_queries wells) = (2 * length wells)%nat.
Proof.
  induction wells as [|w ws IH]; [done|].
  change (well_queries (w :: ws))
    with (("well " +:+ w) :: ("production " +:+ w) :: well_queries ws).
  simpl length. lia.
Qed.

(** Each loop round appends at most one query. *)
Lemma foldl_length_bound {B} (step : list string -> B -> list string) items :
  (forall queries item, (length (step queries item) <= S (length queries))%nat) ->
  forall queries,
    (length (foldl step queries items) <= length queries + length items)%nat.
Proof.
  intros Hstep. induction items as [|item items IH]; intros queries; simpl; [lia|].
  specialize (IH (step queries item)). specialize (Hstep queries item). lia.
Qed.

Lemma expand_query_list_length query :
  (length (expand_query_list query)
   <= 7 + 2 * length (findall well_pattern (upper query)))%nat.
Proof.
  unfold expand_query_list, queries_before_dates.
  etransitivity; [apply foldl_length_bound|].
  { intros queries pattern. unfold date_step.
    destruct (findall pattern query); [lia|]. rewrite length_app. simpl. lia. }
  etransitivity; [apply Nat.add_le_mono_r, foldl_length_bound|].
  { intros queries keyword. unfold flowstation_step.
    destruct (contains (lower query) keyword); [|lia]. rewrite length_app. simpl. lia. }
  rewrite length_app, well_queries_length. simpl. lia.
Qed.

End ExpandMembers.

(** X1. The question itself is always among the expanded queries. *)
Theorem expand_query_keeps_question (list_set : set_order) (query : string) :
  set_order_ok list_set -> query ∈ expand_query list_set query.
Proof.
  intros Hok. unfold expand_query. apply (Hok (expand_query_list query)).
  apply expand_query_list_keeps, queries_before_dates_keeps. by left.
Qed.

Lemma expand_query_keeps_question_witness :
  "Total water production for OML 24"
    ∈ expand_query Demo.first_seen_order "Total water production for OML 24".
Proof.
  apply (expand_query_keeps_question Demo.first_seen_order _ first_seen_order_ok).
Defined.

(** X2. For every well identifier found in the upper-cased question, the
    result holds the two queries "well <id>" and "production <id>". *)
Theorem expand_query_well_queries (list_set : set_order) (query well : string) :
  set_order_ok list_set ->
  well ∈ findall well_pattern (upper query) ->
  "well " +:+ well ∈ expand_query list_set query /\
  "production " +:+ well ∈ expand_query list_set query.
Proof.
  intros Hok Hwell. unfold expand_query.
  destruct (well_queries_members _ _ Hwell) as [Hw Hp].
  split; apply (Hok (expand_query_list query));
    apply expand_query_list_keeps, queries_before_dates_keeps; by right.
Qed.

Lemma expand_query_well_queries_witness :
  "well AWOB001T:L0123S"
    ∈ expand_query Demo.first_seen_order "What did awob001t:l0123s produce?" /\
  "production AWOB001T:L0123S"
    ∈ expand_query Demo.first_seen_order "What did awob001t:l0123s produce?".
Proof.
  apply (expand_query_well_queries Demo.first_seen_order
           "What did awob001t:l0123s produce?" "AWOB001T:L0123S" first_seen_order_ok).
  vm_compute. left.
Defined.

(** X3. A question with no well identifier, none of the flowstation
    keywords and no date expands to itself alone. *)
Theorem expand_query_plain_question (list_set : set_order) (query : string) :
  set_order_ok list_set ->
  findall well_pattern (upper query) = [] ->
  Forall (fun keyword => contains (lower query) keyword = false) flowstation_keywords ->
  Forall (fun pattern => findall pattern query = []) date_patterns ->
  expand_query list_set query = [query].
Proof.
  intros Hok Hwells Hkw Hdates.
  assert (expand_query_list query = [query]) as Hlist.
  { unfold expand_query_list, queries_before_dates, date_patterns, flowstation_keywords
      in *.
    repeat (apply Forall_cons_1 in Hkw as [? Hkw]).
    repeat (apply Forall_cons_1 in Hdates as [? Hdates]).
    rewrite Hwells. cbn [foldl well_queries flat_map app].
    unfold flowstation_step, date_step.
    repeat match goal with H : contains _ _ = false |- _ => rewrite H; clear H end.
    repeat match goal with H : findall _ _ = [] |- _ => rewrite H; clear H end.
    reflexivity. }
  unfold expand_query. destruct (Hok (expand_query_list query)) as [Hnd Hmem].
  apply NoDup_singleton_members; [done|].
  intros x. rewrite Hmem, Hlist. apply list_elem_of_singleton.
Qed.

Lemma expand_query_plain_question_witness :
  expand_query Demo.first_seen_order "What is the highest producing well?"
    = ["What is the highest producing well?"].
Proof.
  apply (expand_query_plain_question Demo.first_seen_order _ first_seen_order_ok).
  - vm_compute; reflexivity.
  - repeat constructor; vm_compute; reflexivity.
  - repeat constructor; vm_compute; reflexivity.
Defined.

(** X4. The result is never empty and has no repetition, and it holds at
    most seven queries besides the two per well identifier: the question,
    up to three flowstation variants and up to three date queries. *)
Theorem expand_query_size (list_set : set_order) (query : string) :
  set_order_ok list_set ->
  NoDup (expand_query list_set query) /\
  (1 <= length (expand_query list_set query)
   <= 7 + 2 * length (findall well_pattern (upper query)))%nat.
Proof.
  intros Hok. unfold expand_query.
  destruct (Hok (expand_query_list query)) as [Hnd Hmem].
  split; [done|]. split.
  - assert (query ∈ list_set (expand_query_list query)) as Hq.
    { apply Hmem, expand_query_list_keeps, queries_before_dates_keeps. by left. }
    destruct (list_set (expand_query_list query)); [by apply elem_of_nil in Hq|].
    simpl. lia.
  - etransitivity; [|apply expand_query_list_length].
    apply submseteq_length, NoDup_submseteq; [done|].
    intros x Hx. by apply Hmem.
Qed.

Lemma expand_query_size_witness :
  (1 <= length (expand_query Demo.first_seen_order
                  "AWOB001T:L0123S at Awoba flowstation on 2025-10-01")
   <= 9)%nat.
Proof.
  exact (proj2 (expand_query_size Demo.first_seen_order
                  "AWOB001T:L0123S at Awoba flowstation on 2025-10-01"
                  first_seen_order_ok)).
Defined.

(** ** Query expansion: when the keyword replacement changes nothing *)

Section ReplaceFacts.

(** Replacing a text that does not occur leaves the string as it is. *)
Lemma replace_absent s old new :
  contains s old = false -> replace s old new = s.
Proof.
  unfold replace. induction s as [|c s IH]; intros Habs.
  - unfold contains in Habs. apply orb_false_elim in Habs as [Hp _].
    unfold replace_from. by rewrite Hp.
  - unfold contains in Habs; fold contains in Habs.
    apply orb_false_elim in Habs as [Hp Hrest].
    unfold replace_from; fold replace_from. rewrite Hp. by rewrite IH.
Qed.

End ReplaceFacts.

(** X5. The flowstation variant is made by replacing the lower-case
    keyword in the question as typed. When none of the three keywords
    occurs in the question as typed (it may occur in another casing), the
    keyword loop adds nothing new: before the date loop the queries are
    the question and the well queries only. *)
Theorem expand_query_keyword_as_typed (query : string) :
  Forall (fun keyword => contains query keyword = false) flowstation_keywords ->
  forall x,
    x ∈ queries_before_dates query ->
    x = query \/ x ∈ well_queries (findall well_pattern (upper query)).
Proof.
  intros Habs x. unfold queries_before_dates, flowstation_keywords in *.
  repeat (apply Forall_cons_1 in Habs as [? Habs]).
  cbn [foldl]. unfold flowstation_step.
  rewrite !replace_absent by done.
  repeat match goal with |- context [contains (lower query) ?k] =>
    destruct (contains (lower query) k) end;
    rewrite ?elem_of_app, ?elem_of_cons, ?elem_of_nil; tauto.
Qed.

Lemma expand_query_keyword_as_typed_witness :
  contains (lower "Awoba FLOW STATION and FS") "fs" = true /\
  forall x,
    x ∈ queries_before_dates "Awoba FLOW STATION and FS" ->
    x = "Awoba FLOW STATION and FS" \/
    x ∈ well_queries (findall well_pattern (upper "Awoba FLOW STATION and FS")).
Proof.
  split; [reflexivity|].
  apply (expand_query_keyword_as_typed "Awoba FLOW STATION and FS").
  repeat constructor; vm_compute; reflexivity.
Defined.

(** ** The context budgeter: more on the selection *)

Section BudgetMore.

Variable enc : encoder.

(** The selection is a prefix of the chunks, whatever the budget. *)
Lemma limit_loop_prefix max_tokens chunks :
  forall context token_count,
  exists taken rest,
    chunks = taken ++ rest /\
    limit_loop enc max_tokens chunks context token_count
      = (context ++ taken, token_count + total_tokens enc taken).
Proof.
  induction chunks as [|chunk rest IH]; intros context token_count.
  - exists [], []. simpl. rewrite app_nil_r. split; [done|]. f_equal. lia.
  - simpl. destruct (token_count + chunk_tokens enc chunk >? max_tokens).
    + exists [], (chunk :: rest). simpl. rewrite app_nil_r. split; [done|].
      f_equal. lia.
    + destruct (IH (context ++ [chunk]) (token_count + chunk_tokens enc chunk))
        as (taken & rest' & -> & Hrun).
      exists (chunk :: taken), rest'. split; [done|].
      rewrite Hrun, <- app_assoc. simpl. f_equal. lia.
Qed.

(** A larger budget selects at least as much. *)
Lemma limit_loop_monotone small large chunks :
  small <= large ->
  forall context token_count,
    (limit_loop enc small chunks context token_count).1
      `prefix_of` (limit_loop enc large chunks context token_count).1 /\
    (limit_loop enc small chunks context token_count).2
      <= (limit_loop enc large chunks context token_count).2.
Proof.
  intros Hle. induction chunks as [|chunk rest IH]; intros context token_count.
  - simpl. split; [done | lia].
  - simpl.
    destruct (Z.gtb_spec (token_count + chunk_tokens enc chunk) small) as [Hs|Hs];
      destruct (Z.gtb_spec (token_count + chunk_tokens enc chunk) large) as [Hl|Hl].
    + simpl. split; [done | lia].
    + destruct (limit_loop_prefix large rest (context ++ [chunk])
                  (token_count + chunk_tokens enc chunk)) as (taken & rest' & _ & ->).
      simpl. split.
      * rewrite <- app_assoc. by apply prefix_app_r.
      * pose proof (chunk_tokens_nonneg enc chunk).
        pose proof (total_tokens_nonneg enc taken). lia.
    + lia.
    + apply IH.
Qed.

End BudgetMore.

(** X6. When all the chunks together fit the budget, all are selected and
    the returned count is their total cost. *)
Theorem limit_context_all_fit (tk : tiktoken) (model : string)
    (chunks : list string) (max_tokens : Z) :
  total_tokens (select_encoder tk model) chunks <= max_tokens ->
  limit_context tk chunks max_tokens model
    = (chunks, total_tokens (select_encoder tk model) chunks).
Proof.
  intros Hfit. unfold limit_context.
  pose proof (total_tokens_nonneg (select_encoder tk model) chunks) as Hnn.
  destruct (limit_loop_spec (select_encoder tk model) max_tokens chunks [] 0)
    as (taken & rest & -> & Hrun & _ & Hstop); [lia|].
  rewrite Hrun. destruct rest as [|c rest].
  - rewrite app_nil_r. simpl. f_equal.
  - exfalso. rewrite total_tokens_app in Hfit. simpl in Hfit.
    pose proof (total_tokens_nonneg (select_encoder tk model) rest). lia.
Qed.

Lemma limit_context_all_fit_witness :
  limit_context Demo.char_tiktoken ["a"; "b"; "c"] MAX_TOKENS "gpt-3.5-turbo"
    = (["a"; "b"; "c"], 3000).
Proof.
  apply (limit_context_all_fit Demo.char_tiktoken "gpt-3.5-turbo" ["a"; "b"; "c"]
           MAX_TOKENS).
  vm_compute. discriminate.
Defined.

(** X7. The selection grows with the budget: what a budget selects is a
    prefix of what any larger budget selects, and the returned count
    does not decrease. *)
Theorem limit_context_monotone (tk : tiktoken) (model : string)
    (chunks : list string) (small large : Z) :
  small <= large ->
  (limit_context tk chunks small model).1
    `prefix_of` (limit_context tk chunks large model).1 /\
  (limit_context tk chunks small model).2 <= (limit_context tk chunks large model).2.
Proof. intros Hle. unfold limit_context. by apply limit_loop_monotone. Qed.

Lemma limit_context_monotone_witness :
  (limit_context Demo.char_tiktoken ["a"; "b"; "c"] 1500 "gpt-3.5-turbo").1
    `prefix_of` (limit_context Demo.char_tiktoken ["a"; "b"; "c"] 2500 "gpt-3.5-turbo").1.
Proof.
  apply (limit_context_monotone Demo.char_tiktoken "gpt-3.5-turbo" ["a"; "b"; "c"]
           1500 2500).
  lia.
Defined.

(** X8. With a negative budget nothing is selected, and the returned
    count, 0, is above the budget. *)
Theorem limit_context_negative_budget (tk : tiktoken) (model : string)
    (chunks : list string) (max_tokens : Z) :
  max_tokens < 0 ->
  limit_context tk chunks max_tokens model = ([], 0) /\
  (limit_context tk chunks max_tokens model).2 > max_tokens.
Proof.
  intros Hneg. unfold limit_context.
  rewrite limit_loop_negative_budget by done. simpl. split; [done | lia].
Qed.

Lemma limit_context_negative_budget_witness :
  limit_context Demo.char_tiktoken ["a"] (-1) "gpt-3.5-turbo" = ([], 0).
Proof.
  apply (limit_context_negative_budget Demo.char_tiktoken "gpt-3.5-turbo" ["a"] (-1)).
  lia.
Defined.

(** ** Deduplication: inputs it leaves alone *)

Section DedupMore.

(** Pairs whose texts are distinct and unseen all pass the loop. *)
Lemma dedupe_loop_distinct (pairs : list (string * metadata)) :
  forall (seen : gset string) unique_chunks unique_metadatas,
    NoDup pairs.*1 ->
    (forall c, c ∈ pairs.*1 -> c ∉ seen) ->
    dedupe_loop pairs seen unique_chunks unique_metadatas
      = (unique_chunks ++ pairs.*1, unique_metadatas ++ pairs.*2).
Proof.
  induction pairs as [|[chunk meta] rest IH]; intros seen uc um Hnd Hfresh.
  - simpl. by rewrite !app_nil_r.
  - simpl in *. apply NoDup_cons in Hnd as [Hnotin Hnd].
    destruct (decide (chunk ∈ seen)) as [Hseen|_].
    { exfalso. apply (Hfresh chunk); [by left | done]. }
    rewrite IH; [by rewrite <- !app_assoc | done |].
    intros c Hc Hin. apply elem_of_union in Hin as [Hin|Hin].
    + apply elem_of_singleton in Hin as ->. done.
    + apply (Hfresh c); [by right | done].
Qed.

Lemma zip_snd_take {A B} (l : list A) (k : list B) :
  (zip l k).*2 = take (length l) k.
Proof.
  revert k. induction l as [|a l IH]; intros [|b k]; simpl; [done..|].
  by rewrite IH.
Qed.

Lemma dedupe_distinct all_chunks all_metadatas :
  NoDup all_chunks ->
  (length all_chunks <= length all_metadatas)%nat ->
  dedupe all_chunks all_metadatas
    = (all_chunks, take (length all_chunks) all_metadatas).
Proof.
  intros Hnd Hlen. unfold dedupe.
  rewrite dedupe_loop_distinct.
  - simpl. by rewrite fst_zip, zip_snd_take.
  - by rewrite fst_zip.
  - intros c _. apply not_elem_of_empty.
Qed.

End DedupMore.

(** X9. When the retrieved texts are pairwise distinct and every one has
    its metadata, deduplication returns the two lists unchanged. *)
Theorem dedupe_distinct_unchanged (all_chunks : list string)
    (all_metadatas : list metadata) :
  NoDup all_chunks ->
  length all_chunks = length all_metadatas ->
  dedupe all_chunks all_metadatas = (all_chunks, all_metadatas).
Proof.
  intros Hnd Hlen. rewrite dedupe_distinct; [|done|lia].
  by rewrite Hlen, firstn_all.
Qed.

Lemma dedupe_distinct_unchanged_witness :
  dedupe ["a"; "b"] [∅; <["asset" := SStr "OML 24"]> ∅]
    = (["a"; "b"], [∅; <["asset" := SStr "OML 24"]> ∅]).
Proof.
  apply dedupe_distinct_unchanged.
  - repeat constructor; vm_compute; intros H;
      repeat (apply elem_of_cons in H as [H|H]; [discriminate|]);
      by apply elem_of_nil in H.
  - reflexivity.
Defined.

(** X10. Deduplication is idempotent: applied to its own result it
    returns that result. *)
Theorem dedupe_idempotent (all_chunks : list string) (all_metadatas : list metadata) :
  dedupe (dedupe all_chunks all_metadatas).1 (dedupe all_chunks all_metadatas).2
    = dedupe all_chunks all_metadatas.
Proof.
  unfold dedupe at 2 3 4.
  destruct (dedupe_loop_spec (zip all_chunks all_metadatas) ∅ [] [])
    as (kept & -> & _ & Hnd & _).
  simpl. rewrite dedupe_distinct; [|done|by rewrite !length_fmap].
  by rewrite length_fmap, <- (length_fmap snd), firstn_all.
Qed.

(** ** Reranking: ties and missing scores *)

Section RerankMore.

Lemma filter_all_true {A} (f : A -> bool) (l : list A) :
  Forall (fun x => f x = true) l -> List.filter f l = l.
Proof.
  induction 1 as [|x l Hx _ IH]; simpl; [done|]. by rewrite Hx, IH.
Qed.

End RerankMore.

(** X11. When the scorer gives all the chunks the same score (a number),
    reranking keeps the order the chunks have after deduplication. *)
Theorem rerank_all_tied (nan_sort : list scored -> list scored)
    (unique_chunks : list string) (unique_metadatas : list metadata)
    (scores : list score) (s : score) :
  Forall (fun score => py_eq score s = true) scores ->
  rerank nan_sort unique_chunks unique_metadatas scores
    = zip3 unique_chunks unique_metadatas scores.
Proof.
  intros Htied. unfold rerank.
  set (l := zip3 unique_chunks unique_metadatas scores).
  assert (forall x, x ∈ l -> ties_with score_of s x = true) as Hl.
  { intros x Hx. apply zip3_score_in in Hx. rewrite Forall_forall in Htied.
    by apply Htied. }
  rewrite py_sorted_reverse_numbers.
  2:{ apply Forall_forall. intros x Hx. by apply (py_eq_is_number _ s), Hl. }
  rewrite <- (filter_all_true (ties_with score_of s) (sorted_reverse score_of l)).
  - rewrite sorted_reverse_stable. apply filter_all_true.
    apply Forall_forall. exact Hl.
  - apply Forall_forall. intros x Hx. apply Hl.
    by rewrite <- (sorted_reverse_perm score_of l).
Qed.

Lemma rerank_all_tied_witness :
  map chunk_of (rerank Demo.as_found ["a"; "b"; "c"] [∅; ∅; ∅] [Num 1; Num 1; Num 1])
    = ["a"; "b"; "c"].
Proof.
  rewrite (rerank_all_tied Demo.as_found ["a"; "b"; "c"] [∅; ∅; ∅]
             [Num 1; Num 1; Num 1] (Num 1)).
  - reflexivity.
  - repeat constructor.
Defined.

(** X12. Reranking keeps one triple for every position that has a chunk,
    a metadata and a score: when the scorer returns fewer scores than
    there are chunks, the chunks beyond the scores are dropped. This
    holds for all scores without NaN, and with NaN among them as well
    since the list sort leaves a permutation whatever the keys. *)
Theorem rerank_length (nan_sort : list scored -> list scored)
    (unique_chunks : list string)
    (unique_metadatas : list metadata) (scores : list score) :
  Forall (fun s => s <> NaN) scores \/ permutes nan_sort ->
  length (rerank nan_sort unique_chunks unique_metadatas scores)
    = Nat.min (Nat.min (length unique_chunks) (length unique_metadatas))
        (length scores).
Proof.
  intros Hsort.
  assert (Permutation (rerank nan_sort unique_chunks unique_metadatas scores)
            (zip3 unique_chunks unique_metadatas scores)) as Hperm.
  { unfold rerank. destruct Hsort as [Hnum|Hperm].
    - rewrite py_sorted_reverse_numbers by (by apply zip3_numbers).
      apply sorted_reverse_perm.
    - by apply py_sorted_reverse_perm. }
  rewrite (Permutation_length Hperm). unfold zip3.
  etransitivity; [apply (length_zip (zip unique_chunks unique_metadatas) scores)|].
  by rewrite length_zip.
Qed.

Lemma rerank_length_witness :
  length (rerank Demo.as_found ["a"; "b"; "c"] [∅; ∅; ∅] [Num 1; Inf]) = 2%nat.
Proof.
  apply (rerank_length Demo.as_found ["a"; "b"; "c"] [∅; ∅; ∅] [Num 1; Inf]).
  left. repeat constructor; discriminate.
Defined.

(** ** The pipeline: how many calls a question costs *)

Section CallCounting.

Lemma count_app kind (a b : trace) :
  count kind (a ++ b) = (count kind a + count kind b)%nat.
Proof. unfold count. by rewrite List.filter_app, length_app. Qed.

Lemma count_retrieval_only kind (evs : trace) :
  (forall ev, kind ev = true -> is_retrieval_event ev = false) ->
  forallb is_retrieval_event evs = true -> count kind evs = 0%nat.
Proof.
  intros Hkind. unfold count. induction evs as [|ev evs IH]; simpl; [done|].
  intros [Hev Hevs]%andb_prop.
  destruct (kind ev) eqn:E; [|by apply IH].
  apply Hkind in E. congruence.
Qed.

Lemma retrieval_calls_nil n_results queries : retrieval_calls n_results queries [].
Proof.
  unfold retrieval_calls, count. simpl.
  split; [done|]. split; [lia|]. split; [lia|].
  split; [intros v n Hin | intros q Hin]; by apply elem_of_nil in Hin.
Qed.

Lemma retrieval_calls_encode n_results query rest :
  retrieval_calls n_results (query :: rest) [EvEncode query].
Proof.
  unfold retrieval_calls, count. simpl.
  split; [done|]. split; [lia|]. split; [lia|]. split.
  - intros v n Hin. apply list_elem_of_singleton in Hin. discriminate.
  - intros q Hin. apply list_elem_of_singleton in Hin as [= ->]. by left.
Qed.

Lemma retrieval_calls_step n_results query rest v evs :
  retrieval_calls n_results rest evs ->
  retrieval_calls n_results (query :: rest)
    (EvEncode query :: EvQuery v n_results :: evs).
Proof.
  intros (Hret & Henc & Hidx & Hn & Hq). unfold retrieval_calls.
  change (EvEncode query :: EvQuery v n_results :: evs)
    with ([EvEncode query; EvQuery v n_results] ++ evs).
  rewrite !count_app.
  split; [done|].
  split; [unfold count at 1; simpl; lia|].
  split; [unfold count at 1; simpl; lia|].
  split.
  - intros v0 n Hin. apply elem_of_cons in Hin as [Hin|Hin]; [discriminate|].
    apply elem_of_cons in Hin as [Hin|Hin]; [by inversion Hin | by eapply Hn].
  - intros q Hin. apply elem_of_cons in Hin as [[= ->]|Hin]; [by left|].
    apply elem_of_cons in Hin as [Hin|Hin]; [discriminate|]. right. by apply Hq.
Qed.

Variable R : runtime.

(** The retrieval loop records an encode call and at most one index call
    for each query it reaches, and asks the index for [n_results] each
    time. *)
Lemma retrieve_loop_calls n_results queries :
  forall all_chunks all_metadatas t,
  exists evs,
    (retrieve_loop R n_results queries all_chunks all_metadatas t).2 = t ++ evs /\
    retrieval_calls n_results queries evs.
Proof.
  induction queries as [|query rest IH]; intros chunks metas t.
  { exists []. simpl. rewrite app_nil_r. split; [done | apply retrieval_calls_nil]. }
  simpl retrieve_loop. rewrite run_bind. unfold call at 1.
  destruct (encode (services R) t query) as [e|v].
  { exists [EvEncode query]. split; [done | apply retrieval_calls_encode]. }
  rewrite run_bind. unfold call at 1.
  assert (exists evs,
            (t ++ [EvEncode query]) ++ [EvQuery v n_results] = t ++ evs /\
            retrieval_calls n_results (query :: rest) evs) as Hstop.
  { exists [EvEncode query; EvQuery v n_results]. split; [by rewrite <- app_assoc|].
    apply retrieval_calls_step, retrieval_calls_nil. }
  assert (forall chunks' metas',
            exists evs,
              (retrieve_loop R n_results rest chunks' metas'
                 ((t ++ [EvEncode query]) ++ [EvQuery v n_results])).2 = t ++ evs /\
              retrieval_calls n_results (query :: rest) evs) as Hrec.
  { intros chunks' metas'.
    destruct (IH chunks' metas' ((t ++ [EvEncode query]) ++ [EvQuery v n_results]))
      as (evs & Hevs & Hok).
    exists (EvEncode query :: EvQuery v n_results :: evs). split.
    - rewrite Hevs, <- !app_assoc. done.
    - by apply retrieval_calls_step. }
  destruct (index_query (services R) (t ++ [EvEncode query]) v n_results)
    as [e|results]; [exact Hstop|].
  destruct (documents results) as [[|[|d ds] dss]|]; try apply Hrec.
  destruct (metadatas results) as [[|ms mss]|];
    [exact Hstop | apply Hrec | exact Hstop].
Qed.

Lemma expand_query_nonempty list_set query :
  set_order_ok list_set -> expand_query list_set query <> [].
Proof.
  intros Hok Hnil.
  assert (query ∈ expand_query list_set query) as Hq.
  { apply (Hok (expand_query_list query)).
    apply expand_query_list_keeps, queries_before_dates_keeps. by left. }
  rewrite Hnil in Hq. by apply elem_of_nil in Hq.
Qed.

End CallCounting.

(** X13. One question costs at most three embedding calls, three index
    queries, one reranker call and one LLM call, whatever the
    collaborators answer; and every index query asks for [TOP_K] divided
    (rounding down) by the number of consumed queries. *)
Theorem query_chatbot_call_budget (R : runtime) (user_question : string)
    (debug : bool) (t : trace) :
  exists evs,
    (query_chatbot R user_question debug t).2 = t ++ evs /\
    (count is_encode evs <= 3)%nat /\
    (count is_index_query evs <= 3)%nat /\
    (count is_predict evs <= 1)%nat /\
    (count is_chat evs <= 1)%nat /\
    (forall v n,
       EvQuery v n ∈ evs ->
       n = TOP_K `div`
             Z.of_nat (length (take 3 (expand_query (list_set R) user_question)))).
Proof.
  set (consumed := take 3 (expand_query (list_set R) user_question)).
  set (n_results := TOP_K `div` Z.of_nat (length consumed)).
  assert (length consumed <= 3)%nat as Hlen.
  { subst consumed. rewrite length_take. lia. }
  destruct (retrieve_loop_calls R n_results consumed [] [] t)
    as (evs0 & Hevs0 & Hret & Henc & Hidx & Hn & _).
  assert (count is_predict evs0 = 0%nat) as Hp0.
  { apply count_retrieval_only; [by intros []|done]. }
  assert (count is_chat evs0 = 0%nat) as Hc0.
  { apply count_retrieval_only; [by intros []|done]. }
  assert (forall tail,
            count is_encode tail = 0%nat -> count is_index_query tail = 0%nat ->
            (count is_predict tail <= 1)%nat -> (count is_chat tail <= 1)%nat ->
            (forall v n, EvQuery v n ∉ tail) ->
            (count is_encode (evs0 ++ tail) <= 3)%nat /\
            (count is_index_query (evs0 ++ tail) <= 3)%nat /\
            (count is_predict (evs0 ++ tail) <= 1)%nat /\
            (count is_chat (evs0 ++ tail) <= 1)%nat /\
            (forall v n, EvQuery v n ∈ evs0 ++ tail -> n = n_results)) as Hsum.
  { intros tail He Hi Hp Hc Hq. rewrite !count_app.
    split; [lia|]. split; [lia|]. split; [lia|]. split; [lia|].
    intros v n Hin. apply elem_of_app in Hin as [Hin|Hin]; [by eapply Hn|].
    by apply Hq in Hin. }
  assert (forall pairs v n, EvQuery v n ∉ [EvPredict pairs]) as Hq1.
  { intros pairs v n Hin. apply list_elem_of_singleton in Hin. discriminate. }
  assert (forall pairs request v n, EvQuery v n ∉ [EvPredict pairs; EvChat request])
    as Hq2.
  { intros pairs request v n Hin.
    apply elem_of_cons in Hin as [Hin|Hin]; [discriminate|].
    apply list_elem_of_singleton in Hin. discriminate. }
  unfold query_chatbot. fold consumed n_results. rewrite run_bind.
  destruct (retrieve_loop R n_results consumed [] [] t)
    as [[e|[all_chunks all_metadatas]] t1]; simpl in Hevs0; subst t1.
  { exists evs0. split; [done|]. rewrite <- (app_nil_r evs0).
    apply Hsum; try done; try (unfold count; simpl; lia).
    intros v n Hin. by apply elem_of_nil in Hin. }
  destruct all_chunks as [|c0 cs].
  { exists evs0. split; [done|]. rewrite <- (app_nil_r evs0).
    apply Hsum; try done; try (unfold count; simpl; lia).
    intros v n Hin. by apply elem_of_nil in Hin. }
  destruct (dedupe (c0 :: cs) all_metadatas) as [uc um].
  rewrite run_bind. unfold call at 1.
  destruct (predict (services R) (t ++ evs0) _) as [e|scores].
  { eexists (evs0 ++ [EvPredict _]). split; [by rewrite app_assoc|].
    apply Hsum; try done; unfold count; simpl; lia. }
  rewrite run_bind.
  destruct debug, (rerank (nan_sort R) uc um scores) as [|top rest];
    try (eexists (evs0 ++ [EvPredict _]); split; [by rewrite app_assoc|];
         apply Hsum; try done; unfold count; simpl; lia);
    unfold ret at 1; destruct (limit_context _ _ _ _) as [limited n0];
    rewrite groq_llm_inference_run;
    eexists (evs0 ++ [EvPredict _; EvChat _]);
    (split; [simpl; by rewrite <- !app_assoc|]);
    apply Hsum; try done; unfold count; simpl; lia.
Qed.

(** X14. For an admissible iteration order of the set of expanded
    queries, between one and three queries are consumed, so the count
    asked of the index per query is 30, 15 or 10, there is no division by
    zero, and the counts of the consumed queries add up to at most
    [TOP_K]. *)
Theorem query_chatbot_n_results (list_set : set_order) (user_question : string) :
  set_order_ok list_set ->
  let consumed := take 3 (expand_query list_set user_question) in
  let n_results := TOP_K `div` Z.of_nat (length consumed) in
  (1 <= length consumed <= 3)%nat /\
  (n_results = 30 \/ n_results = 15 \/ n_results = 10) /\
  Z.of_nat (length consumed) * n_results <= TOP_K.
Proof.
  intros Hok consumed n_results.
  pose proof (expand_query_nonempty list_set user_question Hok) as Hne.
  assert (1 <= length consumed <= 3)%nat as Hlen.
  { subst consumed. rewrite length_take.
    destruct (expand_query list_set user_question); [done|]. simpl length. lia. }
  split; [done|]. subst n_results. unfold TOP_K.
  destruct (length consumed) as [|[|[|[|k]]]]; try lia; simpl Z.of_nat.
  - split; [left; reflexivity | reflexivity || (vm_compute; discriminate)].
  - split; [right; left; reflexivity | vm_compute; discriminate].
  - split; [right; right; reflexivity | vm_compute; discriminate].
Qed.

Lemma query_chatbot_n_results_witness :
  TOP_K `div` Z.of_nat (length (take 3 (expand_query Demo.first_seen_order
                                          "Awoba flowstation on 2025-10-01")))
    = 10.
Proof.
  destruct (query_chatbot_n_results Demo.first_seen_order
              "Awoba flowstation on 2025-10-01" first_seen_order_ok)
    as (_ & [H|[H|H]] & _); [exfalso; vm_compute in H; discriminate.. | exact H].
Defined.

(** ** The pipeline: failures and the successful run *)

(** X15. When retrieval found candidates and the reranker raises,
    [query_chatbot] raises that exception right after the reranker call,
    without calling the LLM backend; [process_query] turns it into the
    error string made of the warning prefix and the exception's text when
    it is an instance of [Exception], and lets it through otherwise. *)
Theorem query_chatbot_reranker_failure (R : runtime) (user_question : string)
    (t t1 : trace) (all_chunks : list string) (all_metadatas : list metadata)
    (r : raised) :
  let consumed := take 3 (expand_query (list_set R) user_question) in
  let n_results := TOP_K `div` Z.of_nat (length consumed) in
  let pairs :=
    map (fun doc => (user_question, doc)) (dedupe all_chunks all_metadatas).1 in
  retrieve_loop R n_results consumed [] [] t = (inr (all_chunks, all_metadatas), t1) ->
  all_chunks <> [] ->
  predict (services R) t1 pairs = inl r ->
  (forall debug,
     query_chatbot R user_question debug t = (inl r, t1 ++ [EvPredict pairs])) /\
  process_query R user_question t
    = (match r with
       | Exc e => inr (Text (QUERY_ERROR_PREFIX +:+ exn_msg e))
       | BaseExc e => inl (BaseExc e)
       end,
       t1 ++ [EvPredict pairs]).
Proof.
  intros consumed n_results pairs Hret Hne Hfail.
  assert (forall debug,
            query_chatbot R user_question debug t = (inl r, t1 ++ [EvPredict pairs]))
    as Hrun.
  { intros debug. unfold query_chatbot. fold consumed n_results.
    rewrite run_bind, Hret. destruct all_chunks as [|c0 cs]; [done|].
    subst pairs. destruct (dedupe (c0 :: cs) all_metadatas) as [uc um].
    cbn [fst] in Hfail |- *. rewrite run_bind. unfold call at 1. by rewrite Hfail. }
  split; [done|]. unfold process_query, try_except. rewrite Hrun. by destruct r.
Qed.

Lemma query_chatbot_reranker_failure_witness :
  process_query (Demo.reranker_down ["a"]) "q" []
    = (inr (Text "⚠️ Error processing query: model is not loaded"),
       [EvEncode "q"; EvQuery [] 30; EvPredict [("q", "a")]]).
Proof.
  refine (proj2 (query_chatbot_reranker_failure (Demo.reranker_down ["a"]) "q"
                   [] [EvEncode "q"; EvQuery [] 30] ["a"] [∅]
                   (Exc (Exn "RuntimeError" "model is not loaded")) _ _ _)).
  - vm_compute; reflexivity.
  - discriminate.
  - reflexivity.
Defined.

(** X16. When retrieval found candidates, scoring succeeded and the LLM
    backend returns a completion, [query_chatbot] returns the content of
    its first choice verbatim. The request it sent names the model and
    the sampling values of the source, and its user message is the
    template with the context text between the context heading and the
    question heading and the question after the question heading, the
    context text being the separator-joined summaries and texts of the
    chunks that [limit_context] selected from the reranked list; the
    reranker and the backend were each called once after the retrieval
    calls. *)
Theorem query_chatbot_answer_verbatim (R : runtime) (user_question : string)
    (debug : bool) (t t1 : trace) (all_chunks : list string)
    (all_metadatas : list metadata) (scores : list score) (content : reply)
    (others : list reply) :
  let consumed := take 3 (expand_query (list_set R) user_question) in
  let n_results := TOP_K `div` Z.of_nat (length consumed) in
  let unique := dedupe all_chunks all_metadatas in
  let pairs := map (fun doc => (user_question, doc)) unique.1 in
  let reranked := rerank (nan_sort R) unique.1 unique.2 scores in
  let limited :=
    (limit_context (tk R) (map chunk_of reranked) MAX_TOKENS "gpt-3.5-turbo").1 in
  let context_text :=
    join (NL +:+ NL +:+ "---" +:+ NL +:+ NL)
      (context_parts limited (map meta_of reranked)) in
  let prompt :=
    join NL
      ["You are analyzing petroleum engineering production data from a database.";
       "";
       "**IMPORTANT INSTRUCTIONS:**";
       "1. Answer based ONLY on the context provided below";
       "2. If you find specific data, cite it with exact values and units";
       "3. If data is missing or incomplete, clearly state what's missing";
       "4. For production queries, include: well name, flowstation, values with units";
       "5. For date-based queries, verify the date matches what was asked";
       "6. If you see multiple records, analyze all of them";
       "7. Be precise with numbers - don't round unnecessarily";
       "8. Use markdown tables for multiple data points";
       "";
       "**CONTEXT DATA:**";
       context_text;
       "";
       "**USER QUESTION:**";
       user_question;
       "";
       "**YOUR ANSWER:**"] in
  let request :=
    {| model := "llama-3.3-70b-versatile";
       system_content := SYSTEM_PROMPT;
       user_content := prompt;
       temperature := 3 # 10;
       max_completion_tokens := 1024;
       top_p := 9 # 10;
       stream := false |} in
  retrieve_loop R n_results consumed [] [] t = (inr (all_chunks, all_metadatas), t1) ->
  all_chunks <> [] ->
  predict (services R) t1 pairs = inr scores ->
  (debug = true -> reranked <> []) ->
  chat_create (services R) (t1 ++ [EvPredict pairs]) request
    = inr (content :: others) ->
  query_chatbot R user_question debug t
    = (inr content, (t1 ++ [EvPredict pairs]) ++ [EvChat request]).
Proof.
  intros consumed n_results unique pairs reranked limited context_text prompt
    request Hret Hne Hscores Hdebug Hchat.
  assert (prompt = build_prompt context_text user_question) as Hprompt
    by reflexivity.
  assert (request = chat_request_of (build_prompt context_text user_question))
    as Hrequest by (by rewrite <- Hprompt).
  rewrite Hrequest in Hchat |- *. clear Hprompt Hrequest.
  clearbody request. clear request prompt.
  unfold query_chatbot. fold consumed n_results. rewrite run_bind, Hret.
  destruct all_chunks as [|c0 cs]; [done|].
  subst context_text limited reranked pairs unique.
  destruct (dedupe (c0 :: cs) all_metadatas) as [uc um].
  cbn [fst snd] in Hscores, Hdebug, Hchat |- *.
  rewrite run_bind. unfold call at 1. rewrite Hscores. rewrite run_bind.
  assert ((match debug, rerank (nan_sort R) uc um scores with
           | true, [] => raise IndexError
           | _, _ => ret ()
           end : M ()) (t1 ++ [EvPredict (map (fun doc => (user_question, doc)) uc)])
          = (inr (), t1 ++ [EvPredict (map (fun doc => (user_question, doc)) uc)]))
    as ->.
  { destruct debug; [|done]. destruct (rerank (nan_sort R) uc um scores); [|done].
    by destruct Hdebug. }
  destruct (limit_context (tk R) (map chunk_of (rerank (nan_sort R) uc um scores))
              MAX_TOKENS "gpt-3.5-turbo") as [limited n0].
  cbn [fst] in Hchat. rewrite groq_llm_inference_run.
  change (join CONTEXT_SEPARATOR) with (join (NL +:+ NL +:+ "---" +:+ NL +:+ NL)).
  rewrite Hchat. reflexivity.
Qed.

Lemma query_chatbot_answer_verbatim_witness :
  query_chatbot (Demo.fixed_runtime ["a"; "b"]) "q" true []
    = (inr (Text "The answer."),
       [EvEncode "q"; EvQuery [] 30; EvPredict [("q", "a"); ("q", "b")];
        EvChat (chat_request_of
                  (build_prompt
                     ("[Collection: Unknown]" +:+ NL +:+ "a" +:+ CONTEXT_SEPARATOR
                      +:+ "[Collection: Unknown]" +:+ NL +:+ "b") "q"))]).
Proof.
  refine (query_chatbot_answer_verbatim (Demo.fixed_runtime ["a"; "b"]) "q" true
            [] [EvEncode "q"; EvQuery [] 30] ["a"; "b"] [∅; ∅] [Num 1; Num 1]
            (Text "The answer.") [] _ _ _ _ _).
  - vm_compute; reflexivity.
  - discriminate.
  - reflexivity.
  - intros _. vm_compute. discriminate.
  - reflexivity.
Defined.

(** X17. With the debug output on, a scorer that returns no scores makes
    [query_chatbot] raise [IndexError] (the debug line reads the top score
    of an empty list) before any call to the LLM backend; with the debug
    output off the same run goes on to the backend with an empty
    context. *)
Theorem query_chatbot_debug_no_scores (R : runtime) (user_question : string)
    (t t1 : trace) (all_chunks : list string) (all_metadatas : list metadata) :
  let consumed := take 3 (expand_query (list_set R) user_question) in
  let n_results := TOP_K `div` Z.of_nat (length consumed) in
  let pairs :=
    map (fun doc => (user_question, doc)) (dedupe all_chunks all_metadatas).1 in
  retrieve_loop R n_results consumed [] [] t = (inr (all_chunks, all_metadatas), t1) ->
  all_chunks <> [] ->
  predict (services R) t1 pairs = inr [] ->
  query_chatbot R user_question true t = (inl (Exc IndexError), t1 ++ [EvPredict pairs]) /\
  query_chatbot R user_question false t
    = groq_llm_inference R (build_prompt "" user_question) (t1 ++ [EvPredict pairs]).
Proof.
  intros consumed n_results pairs Hret Hne Hscores.
  assert (forall uc um, rerank (nan_sort R) uc um [] = []) as Hnone.
  { intros uc um. unfold rerank, zip3. by rewrite zip_with_nil_r. }
  split; unfold query_chatbot; fold consumed n_results; rewrite run_bind, Hret;
    (destruct all_chunks as [|c0 cs]; [done|]);
    subst pairs; destruct (dedupe (c0 :: cs) all_metadatas) as [uc um];
    cbn [fst] in Hscores |- *; rewrite run_bind; unfold call at 1;
    rewrite Hscores, run_bind, Hnone; reflexivity.
Qed.

Lemma query_chatbot_debug_no_scores_witness :
  query_chatbot (Demo.scorer_silent ["a"]) "q" true []
    = (inl (Exc IndexError), [EvEncode "q"; EvQuery [] 30; EvPredict [("q", "a")]]).
Proof.
  refine (proj1 (query_chatbot_debug_no_scores (Demo.scorer_silent ["a"]) "q"
                   [] [EvEncode "q"; EvQuery [] 30] ["a"] [∅] _ _ _)).
  - vm_compute; reflexivity.
  - discriminate.
  - reflexivity.
Defined.

(** ** The prompt composer: pairing, and what the prompt holds *)

Section ComposerMore.

(** The summary line and text of one reranked chunk. *)
Lemma context_parts_take (reranked : list scored) k :
  context_parts (map chunk_of (take k reranked)) (map meta_of reranked)
    = map (fun x => meta_summary (meta_of x) +:+ NL +:+ chunk_of x) (take k reranked).
Proof.
  unfold context_parts. revert k.
  induction reranked as [|x reranked IH]; intros [|k]; try reflexivity.
  simpl. f_equal. apply IH.
Qed.

Lemma prefix_app p a b :
  String.prefix p a = true -> String.prefix p (a +:+ b) = true.
Proof.
  revert a. induction p as [|c p IH]; intros a Hp;
    [by destruct (a +:+ b)|].
  destruct a as [|d a]; [discriminate|].
  change (String d a +:+ b) with (String d (a +:+ b)).
  simpl in *. destruct (Ascii.ascii_dec c d); [by apply IH | done].
Qed.

Lemma contains_of_prefix s x : String.prefix x s = true -> contains s x = true.
Proof. intros Hp. destruct s; unfold contains; fold contains; by rewrite Hp. Qed.

Lemma contains_app_left a b x :
  contains a x = true -> contains (a +:+ b) x = true.
Proof.
  induction a as [|c a IH]; intros Ha.
  - unfold contains in Ha. apply orb_prop in Ha as [Ha|Ha]; [|done].
    apply contains_of_prefix. by apply prefix_app.
  - unfold contains in Ha; fold contains in Ha.
    change (String c a +:+ b) with (String c (a +:+ b)).
    unfold contains; fold contains.
    apply orb_prop in Ha as [Ha|Ha].
    + apply (prefix_app _ _ b) in Ha.
      change (String c a +:+ b) with (String c (a +:+ b)) in Ha. by rewrite Ha.
    + rewrite IH by done. apply orb_true_r.
Qed.

Lemma contains_app_right a b x :
  contains b x = true -> contains (a +:+ b) x = true.
Proof.
  intros Hb. induction a as [|c a IH]; [done|].
  change (String c a +:+ b) with (String c (a +:+ b)).
  unfold contains; fold contains. rewrite IH. apply orb_true_r.
Qed.

(** The part of the summary around the flowstation field. *)
Lemma meta_summary_flowstation (meta : metadata) :
  is_Some (meta !! "flowStation") \/ is_Some (meta !! "flowstation") ->
  exists before after,
    meta_summary meta =
      before +:+
      (" [Flowstation: "
       +:+ py_str (py_or (get meta "flowStation") (get meta "flowstation")) +:+ "]")
      +:+ after.
Proof.
  intros Hkey.
  exists ("[Collection: " +:+ py_str (get_default meta "collection" (SStr "Unknown"))
          +:+ "]" +:+
          match meta !! "asset" with
          | Some v => " [Asset: " +:+ py_str v +:+ "]"
          | None => ""
          end),
         (match meta !! "date", meta !! "productionDate" with
          | None, None => ""
          | _, _ =>
              " [Date: "
              +:+ py_str (py_or (get meta "date") (get meta "productionDate")) +:+ "]"
          end).
  unfold meta_summary. rewrite !has_key_lookup. unfold get in *.
  destruct (meta !! "asset"), (meta !! "flowStation"), (meta !! "flowstation"),
           (meta !! "date"), (meta !! "productionDate");
    cbn [orb default];
    try (exfalso; destruct Hkey as [[? ?]|[? ?]]; discriminate);
    rewrite ?string_app_assoc, ?string_app_empty_r; reflexivity.
Qed.

End ComposerMore.

(** X18. Every chunk of the context is annotated with the metadata that
    was retrieved and ranked with it: the context parts are the summary
    lines and texts of the first reranked triples, as many as
    [limit_context] selected. *)
Theorem context_parts_own_metadata (tk : tiktoken) (model : string)
    (max_tokens : Z) (reranked : list scored) :
  let limited := (limit_context tk (map chunk_of reranked) max_tokens model).1 in
  context_parts limited (map meta_of reranked)
    = map (fun x => meta_summary (meta_of x) +:+ NL +:+ chunk_of x)
        (take (length limited) reranked).
Proof.
  intros limited. subst limited. unfold limit_context.
  destruct (limit_loop_prefix (select_encoder tk model) max_tokens
              (map chunk_of reranked) [] 0) as (taken & rest & Heq & ->).
  cbn [fst app]. remember (length taken) as k eqn:Hk.
  assert (taken = map chunk_of (take k reranked)) as ->.
  { rewrite <- firstn_map, Heq, Hk. by rewrite take_app_length. }
  apply context_parts_take.
Qed.

(** X19. The prompt starts with the fixed instruction header and holds
    the context text and the user's question verbatim. *)
Theorem build_prompt_holds (context_text user_question : string) :
  String.prefix PROMPT_HEADER (build_prompt context_text user_question) = true /\
  contains (build_prompt context_text user_question) context_text = true /\
  contains (build_prompt context_text user_question) user_question = true.
Proof.
  unfold build_prompt. split; [apply prefix_app, prefix_refl|]. split.
  - apply contains_app_right, contains_app_left, contains_refl.
  - do 4 apply contains_app_right. apply contains_app_left, contains_refl.
Qed.

(** X20. When the primary key [flowStation] holds a truthy value, the
    summary shows that value in its flowstation field, whatever the alias
    key [flowstation] holds. *)
Theorem meta_summary_primary_flowstation (meta : metadata) (v : scalar) :
  meta !! "flowStation" = Some v ->
  truthy v = true ->
  contains (meta_summary meta) (" [Flowstation: " +:+ py_str v +:+ "]") = true.
Proof.
  intros Hv Ht.
  destruct (meta_summary_flowstation meta) as (before & after & ->); [left; eauto|].
  unfold get, py_or. rewrite Hv. cbn [default id]. rewrite Ht.
  apply contains_app_right, contains_app_left, contains_refl.
Qed.

Lemma meta_summary_primary_flowstation_witness :
  contains
    (meta_summary (<["flowStation" := SStr "Awoba"]> (<["flowstation" := SStr "Ekulama"]> ∅)))
    " [Flowstation: Awoba]" = true.
Proof.
  apply (meta_summary_primary_flowstation
           (<["flowStation" := SStr "Awoba"]> (<["flowstation" := SStr "Ekulama"]> ∅))
           (SStr "Awoba")); reflexivity.
Defined.

(** X21. When the primary key [flowStation] is present with a falsy value
    (the empty text, 0, False or None), the flowstation field shows what
    [meta.get] gives for the alias key: the alias value, or the text
    "None" when the alias key is absent. *)
Theorem meta_summary_falsy_flowstation (meta : metadata) (v : scalar) :
  meta !! "flowStation" = Some v ->
  truthy v = false ->
  contains (meta_summary meta)
    (" [Flowstation: " +:+ py_str (default SNone (meta !! "flowstation")) +:+ "]") = true.
Proof.
  intros Hv Ht.
  destruct (meta_summary_flowstation meta) as (before & after & ->); [left; eauto|].
  unfold get, py_or. rewrite Hv. cbn [default id]. rewrite Ht.
  apply contains_app_right, contains_app_left, contains_refl.
Qed.

Lemma meta_summary_falsy_flowstation_witness :
  contains (meta_summary (<["flowStation" := SStr ""]> ∅)) " [Flowstation: None]"
    = true.
Proof.
  exact (meta_summary_falsy_flowstation (<["flowStation" := SStr ""]> ∅) (SStr "")
           eq_refl eq_refl).
Defined.

(** ** Choosing the database and starting the application *)

Section StartupProofs.

Context {collection embedding_model reranker groq_client : Type}.
Implicit Types (env : environment collection)
  (L : loaders embedding_model reranker groq_client).

Lemma or_none_some {A} (attempt : exn + A) a :
  or_none attempt = Some a <-> attempt = inr a.
Proof. destruct attempt; simpl; split; congruence. Qed.

Lemma or_none_none {A} (attempt : exn + A) :
  or_none attempt = None <-> exists e, attempt = inl e.
Proof.
  destruct attempt; simpl; split; try congruence; eauto.
  intros [e He]. discriminate.
Qed.

(** The cloud source answers exactly when the folder exists and opens. *)
Lemma init_chroma_cloud_some env c :
  init_chroma_cloud env = Some c <->
  path_exists env (cloud_chroma_path env) = true /\
  persistent_collection env (cloud_chroma_path env) COLLECTION_NAME = inr c.
Proof.
  unfold init_chroma_cloud. rewrite or_none_some.
  destruct (path_exists env (cloud_chroma_path env)); simpl; split;
    try tauto; try (intros [? ?]; congruence); try discriminate.
Qed.

Lemma init_groq_client_no_key env L :
  getenv env "GROQ_API_KEY" = None \/ getenv env "GROQ_API_KEY" = Some "" ->
  init_groq_client env L = inl MISSING_API_KEY.
Proof. intros [H|H]; unfold init_groq_client; by rewrite H. Qed.

End StartupProofs.

(** X22. [get_vector_db] returns a collection with the label of the first
    source that answers, in the order cloud, local, docker: "cloud" when
    the folder beside the module exists and opens; "local" when the cloud
    source fails and [./chroma_db] opens; "docker" when both fail, the
    port text (variable [CHROMA_DOCKER_PORT], default "8000") reads as a
    number and the server at the host (variable [CHROMA_DOCKER_HOST],
    default "localhost") answers. It returns in no other case. *)
Theorem get_vector_db_priority {collection : Type} (env : environment collection)
    (c : collection) (source : string) :
  get_vector_db env = inr (c, source) <->
  (source = "cloud" /\
   path_exists env (cloud_chroma_path env) = true /\
   persistent_collection env (cloud_chroma_path env) COLLECTION_NAME = inr c) \/
  (source = "local" /\
   init_chroma_cloud env = None /\
   persistent_collection env "./chroma_db" COLLECTION_NAME = inr c) \/
  (source = "docker" /\
   init_chroma_cloud env = None /\
   init_chroma_local env "./chroma_db" = None /\
   exists port,
     int_of_str env (getenv_default env "CHROMA_DOCKER_PORT" "8000") = inr port /\
     http_collection env (getenv_default env "CHROMA_DOCKER_HOST" "localhost") port
       COLLECTION_NAME = inr c).
Proof.
  unfold get_vector_db.
  destruct (init_chroma_cloud env) as [c1|] eqn:Hcloud.
  { apply init_chroma_cloud_some in Hcloud as [Hex Hopen]. split.
    - intros [= <- <-]. by left.
    - intros [(-> & _ & Hc)|[(_ & ? & _)|(_ & ? & _)]]; try discriminate.
      congruence. }
  destruct (init_chroma_local env "./chroma_db") as [c2|] eqn:Hlocal.
  { unfold init_chroma_local in Hlocal. apply or_none_some in Hlocal. split.
    - intros [= <- <-]. right; left. done.
    - intros [(_ & Hex & Hc)|[(-> & _ & Hc)|(_ & _ & ? & _)]]; try discriminate.
      + assert (init_chroma_cloud env = Some c) as Habs
          by (by apply init_chroma_cloud_some).
        congruence.
      + congruence. }
  destruct (int_of_str env (getenv_default env "CHROMA_DOCKER_PORT" "8000"))
    as [e|port] eqn:Hport.
  { split; [discriminate|].
    intros [(_ & Hex & Hc)|[(_ & _ & Hc)|(_ & _ & _ & port & ? & _)]];
      try discriminate.
    - assert (init_chroma_cloud env = Some c) as Habs
        by (by apply init_chroma_cloud_some).
      congruence.
    - unfold init_chroma_local in Hlocal. rewrite Hc in Hlocal. discriminate. }
  destruct (init_chroma_docker env _ port) as [c3|] eqn:Hdocker.
  - unfold init_chroma_docker in Hdocker. apply or_none_some in Hdocker. split.
    + intros [= <- <-]. right; right. eauto 10.
    + intros [(_ & Hex & Hc)|[(_ & _ & Hc)|(-> & _ & _ & port' & [= <-] & Hc)]].
      * assert (init_chroma_cloud env = Some c) as Habs
          by (by apply init_chroma_cloud_some).
        congruence.
      * unfold init_chroma_local in Hlocal. rewrite Hc in Hlocal. discriminate.
      * congruence.
  - split; [discriminate|].
    intros [(_ & Hex & Hc)|[(_ & _ & Hc)|(_ & _ & _ & port' & [= <-] & Hc)]].
    + assert (init_chroma_cloud env = Some c) as Habs
        by (by apply init_chroma_cloud_some).
      congruence.
    + unfold init_chroma_local in Hlocal. rewrite Hc in Hlocal. discriminate.
    + unfold init_chroma_docker in Hdocker. rewrite Hc in Hdocker. discriminate.
Qed.


(** X24. [initialize_app] reports success exactly when the database, the
    embedding model, the reranker and the Groq client were all obtained,
    and then hands out exactly these and the database label. *)
Theorem initialize_app_success {collection embedding_model reranker groq_client : Type}
    (env : environment collection)
    (L : loaders embedding_model reranker groq_client)
    (c : collection) (em : embedding_model) (rk : reranker) (g : groq_client)
    (db_source : string) :
  initialize_app env L = Success c em rk g db_source <->
  get_vector_db env = inr (c, db_source) /\
  load_embedding_model L = inr em /\
  load_reranker L = inr rk /\
  init_groq_client env L = inr g.
Proof.
  unfold initialize_app.
  destruct (get_vector_db env) as [e|[c' src]];
    [split; [discriminate | by intros [? _]]|].
  destruct (load_embedding_model L) as [e|em'];
    [split; [discriminate | by intros (_ & ? & _)]|].
  destruct (load_reranker L) as [e|rk'];
    [split; [discriminate | by intros (_ & _ & ? & _)]|].
  destruct (init_groq_client env L) as [e|g'];
    [split; [discriminate | by intros (_ & _ & _ & ?)]|].
  split.
  - intros [= <- <- <- <- <-]. done.
  - intros ([= <- <-] & [= <-] & [= <-] & [= <-]). done.
Qed.

(** X25. Without an API key (the variable [GROQ_API_KEY] unset or empty)
    [initialize_app] never reports success, and when the database and the
    two models load, the error it reports is the missing-key message. *)
Theorem initialize_app_needs_api_key
    {collection embedding_model reranker groq_client : Type}
    (env : environment collection)
    (L : loaders embedding_model reranker groq_client) :
  getenv env "GROQ_API_KEY" = None \/ getenv env "GROQ_API_KEY" = Some "" ->
  status (initialize_app env L) = "error" /\
  (forall c db_source em rk,
     get_vector_db env = inr (c, db_source) ->
     load_embedding_model L = inr em ->
     load_reranker L = inr rk ->
     initialize_app env L = Error (exn_msg MISSING_API_KEY)).
Proof.
  intros Hkey. pose proof (init_groq_client_no_key env L Hkey) as Hgroq.
  unfold initialize_app. rewrite Hgroq. split.
  - destruct (get_vector_db env) as [?|[? ?]]; [done|].
    destruct (load_embedding_model L); [done|].
    by destruct (load_reranker L).
  - intros c src em rk -> -> ->. done.
Qed.

Lemma initialize_app_needs_api_key_witness :
  initialize_app (Demo.machine ["./chroma_db"] false (<["GROQ_API_KEY" := ""]> ∅))
    Demo.good_loaders
    = Error "❌ GROQ_API_KEY not found in environment variables".
Proof.
  refine (proj2 (initialize_app_needs_api_key
                   (Demo.machine ["./chroma_db"] false (<["GROQ_API_KEY" := ""]> ∅))
                   Demo.good_loaders _) "./chroma_db" "local" _ _ _ _ _).
  - right. reflexivity.
  - reflexivity.
  - reflexivity.
  - reflexivity.
Defined.

(** ** Retrieval keeps texts and metadata in step *)

Section RetrievalAligned.

Variable R : runtime.

Lemma retrieve_loop_aligned n_results queries :
  (forall t v n results,
     index_query (services R) t v n = inr results -> aligned results) ->
  forall all_chunks all_metadatas t chunks metas t',
    length all_chunks = length all_metadatas ->
    retrieve_loop R n_results queries all_chunks all_metadatas t
      = (inr (chunks, metas), t') ->
    length chunks = length metas.
Proof.
  intros Hidx. induction queries as [|query rest IH];
    intros all_chunks all_metadatas t chunks metas t' Hlen.
  - simpl. unfold ret. by intros [= <- <- _].
  - simpl retrieve_loop. rewrite run_bind. unfold call at 1.
    destruct (encode (services R) t query) as [e|v]; [discriminate|].
    rewrite run_bind. unfold call at 1.
    destruct (index_query (services R) (t ++ [EvEncode query]) v n_results)
      as [e|results] eqn:Hres; [discriminate|].
    apply Hidx in Hres. unfold aligned in Hres.
    destruct (documents results) as [[|[|d ds] dss]|]; try (by apply IH).
    destruct (metadatas results) as [[|ms mss]|]; try discriminate.
    apply IH. rewrite !length_app. by rewrite Hlen, Hres.
Qed.

End RetrievalAligned.

(** X26. When every answer of the index brings as many metadata as
    documents, the texts and the metadata that retrieval merges are in
    step: the two lists handed to deduplication have the same length. *)
Theorem retrieve_loop_parallel (R : runtime) (n_results : Z) (queries : list string)
    (t t' : trace) (all_chunks : list string) (all_metadatas : list metadata) :
  (forall t0 v n results,
     index_query (services R) t0 v n = inr results -> aligned results) ->
  retrieve_loop R n_results queries [] [] t = (inr (all_chunks, all_metadatas), t') ->
  length all_chunks = length all_metadatas.
Proof.
  intros Hidx Hrun. by eapply (retrieve_loop_aligned R n_results queries Hidx [] []).
Qed.

Lemma retrieve_loop_parallel_witness :
  length ["a"; "b"; "a"; "b"] = length [(∅ : metadata); ∅; ∅; ∅].
Proof.
  apply (retrieve_loop_parallel (Demo.fixed_runtime ["a"; "b"]) 15 ["q1"; "q2"]
           [] [EvEncode "q1"; EvQuery [] 15; EvEncode "q2"; EvQuery [] 15]).
  - intros t0 v n results [= <-]. reflexivity.
  - vm_compute; reflexivity.
Defined.
